(** * A shallow embedding of the Befunge-93 interpreter [b93.cc]

    The development follows the source file top to bottom: the grid
    ([grid_t], [readfile]), the stack helpers ([push], [pop]), the cursor
    ([move], [dirs]), the dispatch loop of [interpret] and the command line
    ([main]).

    Conventions of the model.
    - Every C++ integer is a [Z]; conversions between integer types are
      written out ([int32], [to_char], [to_size_t], [to_ptrdiff_t]).
      [std::size_t] and [std::ptrdiff_t] are 64 bits wide and [char] is a
      signed 8-bit type, as on x86-64. Sums, differences and products of
      [std::int32_t] wrap around; a division by zero and the quotient
      of the least [std::int32_t] by -1 have no value.
    - [std::array<char, N> data] is a [list Z] of length [N] read with
      stdpp's lookup and written with stdpp's insert. The stores of
      [readfile], whose index nothing bounds, have no result outside the
      array.
    - [std::vector<std::int32_t> stack] is a [list Z] whose head is
      [stack.back()], the top of the stack.
    - Console input and the random engine are oracles carried by the
      machine state; console output is a trace.
    - The loop of [interpret] is followed for a number of iterations, and
      [main] with it: a call that has not returned by then is reported as
      such. *)

From Stdlib Require Import ZArith Ascii Lia.
From Stdlib Require String.
Import String.StringSyntax.
From stdpp Require Import base list.

Open Scope Z_scope.

Module B93.

(** ** Integer types *)

(** Value of a mathematical integer once stored in a [std::int32_t]
    (two's complement wrap-around). *)
Definition int32 (z : Z) : Z := (z + 2 ^ 31) mod 2 ^ 32 - 2 ^ 31.

(** Value of an integer once stored in a [char]: the low 8 bits, read back
    as a signed quantity. *)
Definition to_char (z : Z) : Z := (z + 128) mod 256 - 128.

(** Conversion to [std::size_t], an unsigned 64-bit integer. *)
Definition to_size_t (z : Z) : Z := z mod 2 ^ 64.

(** Conversion to [std::ptrdiff_t], a signed 64-bit integer. *)
Definition to_ptrdiff_t (z : Z) : Z := (z + 2 ^ 63) mod 2 ^ 64 - 2 ^ 63.

Definition INT32_MIN : Z := - 2 ^ 31.

(** [b - a] and [pop() + pop()], [pop() * pop()] on [std::int32_t]. *)
Definition add32 (a b : Z) : Z := int32 (a + b).
Definition sub32 (b a : Z) : Z := int32 (b - a).
Definition mul32 (a b : Z) : Z := int32 (a * b).

(** [b / a] and [b % a] on [std::int32_t]: truncation towards zero; no
    value when the divisor is zero or the quotient is not representable. *)
Definition div32 (b a : Z) : option Z :=
  if a =? 0 then None
  else if (b =? INT32_MIN) && (a =? -1) then None
  else Some (Z.quot b a).

Definition rem32 (b a : Z) : option Z :=
  if a =? 0 then None
  else if (b =? INT32_MIN) && (a =? -1) then None
  else Some (Z.rem b a).

(** ** The grid *)

Definition max_row_size : Z := 25.
Definition max_col_size : Z := 80.

(** Members [rows] and [cols] of [grid_t]; note the extra column. *)
Definition rows : Z := max_row_size.
Definition cols : Z := max_col_size + 1.

(** Number of cells of [grid_t::data]. *)
Definition data_size : nat := Z.to_nat (max_row_size * (max_col_size + 1)).

(** The index expression [y * cols + x], computed in [std::size_t]. *)
Definition cell_index (x y : Z) : Z := to_size_t (y * cols + x).

(** [data[i]]; the model reads 0 outside the array, where C++ defines
    nothing. *)
Definition at_index (data : list Z) (i : Z) : Z :=
  match data !! Z.to_nat i with
  | Some c => c
  | None => 0
  end.

(** [data[i] = value] with the conversion of [value] to [char]. *)
Definition store (data : list Z) (i : Z) (value : Z) : list Z :=
  <[Z.to_nat i := to_char value]> data.

(** Code of a character literal such as ['+']. *)
Definition code (a : ascii) : Z := Z.of_N (N_of_ascii a).

(** The character a cell value stands for in the [switch]. *)
Definition as_ascii (c : Z) : ascii := ascii_of_N (Z.to_N (c mod 256)).

(** ** The stack *)

Definition push (value : Z) (stack : list Z) : list Z := value :: stack.

Definition pop (stack : list Z) : Z * list Z :=
  match stack with
  | [] => (0, [])
  | temp :: rest => (temp, rest)
  end.

(** ** The cursor *)

(** Indices 0 to 3 of the table [dirs], named after the vectors they hold:
    with [pos[0]] the column and [pos[1]] the row, (-1, 0) at index 2 points
    west and (1, 0) at index 3 east; [<] selects index 2 and [>] index 3.
    (The comment above the table in the source lists the last two in the
    other order.) *)
Inductive cardinal : Set := South | North | West | East.

Definition dirs (c : cardinal) : Z * Z :=
  match c with
  | South => (0, 1)
  | North => (0, -1)
  | West => (-1, 0)
  | East => (1, 0)
  end.

(** One coordinate of [move]: [((p + d) % n + n) % n] where [p] and [d]
    are [std::ptrdiff_t] and [n] is a [std::size_t], so that the sum is
    converted to [std::size_t] before the first remainder is taken. *)
Definition wrap_axis (p d n : Z) : Z :=
  to_ptrdiff_t (to_size_t (to_size_t (p + d) mod n + n) mod n).

(** The same expression computed in an unsigned type of [w] bits and stored
    in a signed one: what [move] does where [std::size_t] and
    [std::ptrdiff_t] are [w] bits wide and [int] is no wider. *)
Definition wrap_axis_bits (w p d n : Z) : Z :=
  (((p + d) mod 2 ^ w mod n + n) mod 2 ^ w mod n + 2 ^ (w - 1)) mod 2 ^ w
  - 2 ^ (w - 1).

(** The expression of [move] on an implementation whose [int] has [i] bits
    and whose [std::size_t] and [std::ptrdiff_t] both have [w] bits. Types
    narrower than [int] are promoted to [int], which holds all their values:
    the sum, both remainders (truncating) and the addition are then signed.
    Otherwise the operands of [%] are brought to the unsigned type of [w]
    bits. *)
Definition wrap_axis_on (i w p d n : Z) : Z :=
  if w <? i then Z.rem (Z.rem (p + d) n + n) n
  else wrap_axis_bits w p d n.

(** ** Machine state *)

Inductive out_item : Set :=
| PrintInt (value : Z)     (* printf("%d ", value) *)
| PrintChar (value : Z).   (* printf("%c", value) *)

Record machine : Type := Machine {
  data : list Z;            (* the grid cells *)
  stack : list Z;           (* head = top *)
  pos : Z * Z;              (* pos[0], pos[1] *)
  dir : Z * Z;              (* dir[0], dir[1] *)
  output : list out_item;   (* what has been printed, oldest first *)
  input : list Z;           (* values the coming scanf calls will store *)
  rng : nat -> cardinal;    (* successive results of dist(engine) *)
  drawn : nat               (* how many of them have been used *)
}.

Definition with_data (d : list Z) (m : machine) : machine :=
  Machine d (stack m) (pos m) (dir m) (output m) (input m) (rng m) (drawn m).
Definition with_stack (s : list Z) (m : machine) : machine :=
  Machine (data m) s (pos m) (dir m) (output m) (input m) (rng m) (drawn m).
Definition with_pos (p : Z * Z) (m : machine) : machine :=
  Machine (data m) (stack m) p (dir m) (output m) (input m) (rng m) (drawn m).
Definition with_dir (d : Z * Z) (m : machine) : machine :=
  Machine (data m) (stack m) (pos m) d (output m) (input m) (rng m) (drawn m).
Definition with_output (o : list out_item) (m : machine) : machine :=
  Machine (data m) (stack m) (pos m) (dir m) o (input m) (rng m) (drawn m).
Definition with_input (i : list Z) (m : machine) : machine :=
  Machine (data m) (stack m) (pos m) (dir m) (output m) i (rng m) (drawn m).
Definition with_drawn (n : nat) (m : machine) : machine :=
  Machine (data m) (stack m) (pos m) (dir m) (output m) (input m) (rng m) n.

(** State of [interpret] when the loop is entered: empty stack,
    [pos = {}], [dir = {1, 0}]. *)
Definition initial (grid : list Z) (stdin : list Z) (gen : nat -> cardinal) : machine :=
  Machine grid [] (0, 0) (1, 0) [] stdin gen 0%nat.

(** The lambda [move]. *)
Definition move (m : machine) : machine :=
  with_pos (wrap_axis (fst (pos m)) (fst (dir m)) cols,
            wrap_axis (snd (pos m)) (snd (dir m)) rows) m.

(** [data[pos[1] * cols + pos[0]]]. *)
Definition fetch (m : machine) : Z :=
  at_index (data m) (cell_index (fst (pos m)) (snd (pos m))).

(** The bounds test shared by ['g'] and ['p'], on the popped values [x]
    and [y] converted to [std::ptrdiff_t] (a conversion that keeps every
    [std::int32_t] value). *)
Definition in_program (x y : Z) : bool :=
  (0 <=? x) && (x <? max_col_size) && (0 <=? y) && (y <? max_row_size).

(** ** The dispatch loop *)

(** What one pass through the [switch] leads to. *)
Inductive outcome : Type :=
| Running (m : machine)   (* the case ended with [break] *)
| Halted (m : machine)    (* ['@']: [interpret] returned *)
| Undefined               (* C++ gives the operation no meaning *)
| OutOfFuel.              (* the string loop did not stop within the fuel *)

(** The double-quote character (code 34), which opens and closes a string. *)
Definition quote_char : ascii := Ascii false true false false false true false false.

(** The inner [for (;;)] of the double-quote case: while the character
    under the cursor is not a quote, push it and move. *)
Fixpoint scan (fuel : nat) (m : machine) : option machine :=
  match fuel with
  | O => None
  | S fuel' =>
      let ch := fetch m in
      if ch =? code quote_char then Some m
      else scan fuel' (move (with_stack (push ch (stack m)) m))
  end.

(** The body of the [switch] for the character [ins]. [extensions] is the
    flag of [interpret]; [fuel] bounds the string loop. *)
Definition exec (extensions : bool) (fuel : nat) (ins : Z) (m : machine) : outcome :=
  match as_ascii ins with
  | "+"%char =>
      let '(a, s) := pop (stack m) in
      let '(b, s) := pop s in
      Running (with_stack (push (add32 a b) s) m)
  | "-"%char =>
      let '(a, s) := pop (stack m) in
      let '(b, s) := pop s in
      Running (with_stack (push (sub32 b a) s) m)
  | "/"%char =>
      let '(a, s) := pop (stack m) in
      let '(b, s) := pop s in
      match div32 b a with
      | Some q => Running (with_stack (push q s) m)
      | None => Undefined
      end
  | "*"%char =>
      let '(a, s) := pop (stack m) in
      let '(b, s) := pop s in
      Running (with_stack (push (mul32 a b) s) m)
  | "%"%char =>
      let '(a, s) := pop (stack m) in
      let '(b, s) := pop s in
      match rem32 b a with
      | Some r => Running (with_stack (push r s) m)
      | None => Undefined
      end
  | "!"%char =>
      match stack m with
      | [] => Running (with_stack (push 1 []) m)
      | back :: rest => Running (with_stack ((if back =? 0 then 1 else 0) :: rest) m)
      end
  | "`"%char =>
      let '(a, s) := pop (stack m) in
      let '(b, s) := pop s in
      Running (with_stack (push (if b >? a then 1 else 0) s) m)
  | "^"%char => Running (with_dir (dirs North) m)
  | "v"%char => Running (with_dir (dirs South) m)
  | ">"%char => Running (with_dir (dirs East) m)
  | "<"%char => Running (with_dir (dirs West) m)
  | "_"%char =>
      let '(v, s) := pop (stack m) in
      Running (with_dir (if negb (v =? 0) then dirs West else dirs East)
                        (with_stack s m))
  | "|"%char =>
      let '(v, s) := pop (stack m) in
      Running (with_dir (if negb (v =? 0) then dirs North else dirs South)
                        (with_stack s m))
  | Ascii false true false false false true false false (* quote_char *) =>
      match scan fuel (move m) with
      | Some m' => Running m'
      | None => OutOfFuel
      end
  | ":"%char =>
      Running (with_stack (push (match stack m with [] => 0 | back :: _ => back end)
                                (stack m)) m)
  | "\"%char =>
      match stack m with
      | [] => Running m
      | [_] => Running (with_stack (push 0 (stack m)) m)
      | last1 :: last2 :: rest => Running (with_stack (last2 :: last1 :: rest) m)
      end
  | "$"%char =>
      let '(_, s) := pop (stack m) in
      Running (with_stack s m)
  | "."%char =>
      let '(value, s) := pop (stack m) in
      Running (with_output (output m ++ [PrintInt value]) (with_stack s m))
  | ","%char =>
      let '(value, s) := pop (stack m) in
      Running (with_output (output m ++ [PrintChar (to_char value)]) (with_stack s m))
  | "#"%char => Running (move m)
  | "g"%char =>
      let '(y, s) := pop (stack m) in
      let '(x, s) := pop s in
      Running (with_stack
                 (push (if in_program x y then at_index (data m) (cell_index x y) else 0) s)
                 m)
  | "p"%char =>
      let '(y, s) := pop (stack m) in
      let '(x, s) := pop s in
      let '(value, s) := pop s in
      if in_program x y
      then Running (with_data (store (data m) (cell_index x y) value) (with_stack s m))
      else Running (with_stack s m)
  | "&"%char =>
      match input m with
      | value :: later => Running (with_input later (with_stack (push (int32 value) (stack m)) m))
      | [] => Undefined
      end
  | "~"%char =>
      match input m with
      | value :: later => Running (with_input later (with_stack (push (to_char value) (stack m)) m))
      | [] => Undefined
      end
  | "@"%char => Halted m
  | "0"%char | "1"%char | "2"%char | "3"%char | "4"%char
  | "5"%char | "6"%char | "7"%char | "8"%char | "9"%char =>
      Running (with_stack (push (ins - code "0") (stack m)) m)
  | "a"%char | "b"%char | "c"%char | "d"%char | "e"%char | "f"%char =>
      if negb extensions then Running m
      else Running (with_stack (push (ins - code "a" + 10) (stack m)) m)
  | "?"%char =>
      Running (with_drawn (S (drawn m)) (with_dir (dirs (rng m (drawn m))) m))
  | "'"%char =>
      if negb extensions then Running m
      else let m' := move m in
           Running (with_stack (push (fetch m') (stack m')) m')
  | _ => Running m
  end.

(** One iteration of the outer [for (;;)]: the [switch] on the character
    under the cursor, then [move()]. *)
Definition step (extensions : bool) (fuel : nat) (m : machine) : outcome :=
  match exec extensions fuel (fetch m) m with
  | Running m' => Running (move m')
  | o => o
  end.

(** [n] iterations of the outer loop. *)
Fixpoint run (extensions : bool) (fuel : nat) (n : nat) (m : machine) : outcome :=
  match n with
  | O => Running m
  | S n' =>
      match step extensions fuel m with
      | Running m' => run extensions fuel n' m'
      | o => o
      end
  end.

(** ** The program loader *)

(** Number of bytes [readfile] reads at most. *)
Definition read_limit : nat := Z.to_nat (max_row_size * max_col_size).

(** The copy loop of [readfile] over the bytes still to process, with the
    loop variables [j] and [cols] (here [ncols]). Nothing in the source
    bounds [j]: a store [result.data[j]] past the end of the array has no
    meaning in C++, and the loop then has no result. *)
Fixpoint copy_bytes (bytes : list Z) (j ncols : Z) (result : list Z) : option (list Z) :=
  match bytes with
  | [] => Some result
  | byte :: later =>
      if Z.land (byte mod 256) 192 =? 128
      then copy_bytes later (to_size_t (to_size_t (j - 1) + 1)) ncols result
      else if to_char byte =? 10
      then copy_bytes later (to_size_t (to_size_t (j + to_size_t (cols - ncols - 1)) + 1)) 0 result
      else if j <? Z.of_nat data_size
      then copy_bytes later (to_size_t (j + 1)) (ncols + 1)
                      (<[Z.to_nat j := to_char byte]> result)
      else None
  end.

(** [readfile] on a file that opens and holds [bytes]: the member [data] of
    the grid it returns ([rows] and [cols] keep their initial values), or
    [None] when a store falls outside the array. *)
Definition readfile (bytes : list Z) : option (list Z) :=
  copy_bytes (take read_limit bytes) 0 0 (replicate data_size 0).

(** [interpret(filepath, extensions)] for a file holding [bytes], followed
    for [n] iterations of its loop. *)
Definition interpret (bytes : list Z) (extensions : bool)
    (stdin : list Z) (gen : nat -> cardinal) (fuel n : nat) : outcome :=
  match readfile bytes with
  | Some grid => run extensions fuel n (initial grid stdin gen)
  | None => Undefined
  end.

(** ** Vocabulary of the properties *)

(** [n] calls of [move] in a row. *)
Definition advance (n : nat) (m : machine) : machine := Nat.iter n move m.

(** The coordinate reached from [p] by [k] steps back along an axis of
    size [n]. *)
Definition steps_back (n : Z) (k : nat) (p : Z) : Z :=
  Nat.iter k (fun q => wrap_axis q (-1) n) p.

(** A position inside the grid. *)
Definition in_grid (p : Z * Z) : Prop :=
  0 <= fst p < cols /\ 0 <= snd p < rows.

(** A grid of zero cells and the machine that is about to run it. *)
Definition blank_grid : list Z := replicate data_size 0.
Definition idle : machine := initial blank_grid [] (fun _ => South).

(** The grid of a file that [readfile] loads within the array. *)
Definition loaded (bytes : list Z) : list Z := default blank_grid (readfile bytes).

(** A one-line program file: 58 spaces, then [#], a double quote and [<]
    in columns 58, 59 and 60, then a newline. The cursor jumps over the
    quote, turns round on [<] and enters the quote heading west. *)
Definition trap_source : list Z :=
  replicate 58 (code " ") ++ [code "#"; code quote_char; code "<"; 10].

(** The state of the one-character program [<] after its first
    iteration. *)
Definition after_turn : machine :=
  Machine (loaded [code "<"]) [] (51, 0) (dirs West) [] [] (fun _ => South) 0%nat.

(** The state [trap_source] is in when the westward quote is about to be
    executed. *)
Definition trap_state (stdin : list Z) (gen : nat -> cardinal) : machine :=
  Machine (loaded trap_source) [] (59, 0) (dirs West) [] stdin gen 0%nat.

(** ** The command line *)

Delimit Scope string_scope with string.

(** What [main] writes to [stderr] (and [readfile] when a file does not
    open). *)
Inductive message : Set :=
| InvalidArguments                 (* Error: invalid arguments *)
| ExpectedAFile                    (* Error: exptected a file *)
| CouldNotOpen (filepath : String.string). (* Error: could not open ... *)

(** What [main] does that can be seen from outside: it calls [interpret]
    or it writes a message. *)
Inductive event : Set :=
| Call (filepath : String.string) (extensions : bool)
| Complain (text : message).

Inductive exit_code : Set := EXIT_SUCCESS | EXIT_FAILURE.

(** How far [main] has come: the process has ended with an exit code
    ([return] from [main], or [std::exit] in [readfile]); or it is inside a
    call of [interpret] whose behaviour C++ does not define; or it is inside
    a call of [interpret] that has not returned within the iterations it was
    followed for. *)
Inductive ending : Set :=
| Exit (status : exit_code)
| Lost
| Inside.

(** [argv_sv.substr(0, 12) == "--extensions"]. *)
Definition is_flag (arg : String.string) : bool :=
  String.eqb (String.substring 0 12 arg) "--extensions".

(** The two [find] tests on a flag: [Some true], [Some false], or [None]
    when [main] gives up. *)
Definition flag_value (arg : String.string) : option bool :=
  match String.index 12 "true" arg with
  | Some _ => Some true
  | None =>
      match String.index 12 "false" arg with
      | Some _ => Some false
      | None => None
      end
  end.

Section CommandLine.

(** The bytes of the file at a path, [None] for a path that does not
    open. *)
Variable files : String.string -> option (list Z).

(** The random choices of the engine that the call of [interpret] number
    [k] seeds. *)
Variable seeds : nat -> nat -> cardinal.

(** Each call of [interpret] is followed for [budget] iterations of its
    dispatch loop, its string loops for [fuel] iterations each. *)
Variable fuel budget : nat.

(** The call [interpret(filepath, extensions)] inside the loop of [main],
    as call number [k] with [stdin] still to be read, followed by the rest
    of the loop. [readfile] leaves the process when the file does not open;
    [interpret] returns when its program executes [@], and then the rest of
    the loop sees what the program left of the input. *)
Definition call_then (filepath : String.string) (extensions : bool)
    (k : nat) (stdin : list Z)
    (later : nat -> list Z -> list event * ending) : list event * ending :=
  match files filepath with
  | None => ([Call filepath extensions; Complain (CouldNotOpen filepath)], Exit EXIT_FAILURE)
  | Some bytes =>
      match interpret bytes extensions stdin (seeds k) fuel budget with
      | Halted m =>
          (Call filepath extensions :: fst (later (S k) (input m)),
           snd (later (S k) (input m)))
      | Undefined => ([Call filepath extensions], Lost)
      | Running _ | OutOfFuel => ([Call filepath extensions], Inside)
      end
  end.

(** The loop of [main] over [argv[i + 1]], [argv[i + 2]], ..., entered
    after [k] calls of [interpret] with [stdin] still to be read. *)
Fixpoint main (args : list String.string) (k : nat) (stdin : list Z) : list event * ending :=
  match args with
  | [] => ([], Exit EXIT_SUCCESS)
  | arg :: rest =>
      if is_flag arg then
        match flag_value arg with
        | None => ([Complain InvalidArguments], Exit EXIT_FAILURE)
        | Some extensions =>
            match rest with
            | [] => ([Complain ExpectedAFile], Exit EXIT_FAILURE)
            | filepath :: rest' => call_then filepath extensions k stdin (main rest')
            end
        end
      else call_then arg false k stdin (main rest)
  end.

End CommandLine.








Definition is_call (e : event) : bool :=
  match e with
  | Call _ _ => true
  | Complain _ => false
  end.

(** A trace of [main] that goes with its ending: calls only before the
    exit code [EXIT_SUCCESS]; calls and then one message before the exit
    code [EXIT_FAILURE]; otherwise calls, the last of which, on a file that
    opens, has not returned. *)
Definition orderly (files : String.string -> option (list Z))
    (seeds : nat -> nat -> cardinal) (fuel budget : nat)
    (r : list event * ending) : Prop :=
  match snd r with
  | Exit EXIT_SUCCESS => forallb is_call (fst r) = true
  | Exit EXIT_FAILURE =>
      exists calls text,
        fst r = calls ++ [Complain text] /\ forallb is_call calls = true
  | Lost | Inside =>
      exists calls filepath extensions bytes k stdin,
        fst r = calls ++ [Call filepath extensions] /\
        forallb is_call calls = true /\
        files filepath = Some bytes /\
        forall m, interpret bytes extensions stdin (seeds k) fuel budget <> Halted m
  end.

(** ** Vocabulary for the loader *)

(** The test of [readfile] for a byte that continues a multi-byte
    character. *)
Definition continuation_byte (byte : Z) : bool :=
  Z.land (byte mod 256) 192 =? 128.

(** A byte that [readfile] stores: neither a continuation byte nor a
    newline. *)
Definition plain_byte (byte : Z) : bool :=
  negb (continuation_byte byte) && negb (to_char byte =? 10).

(** The file made of [lines], each followed by a newline, and of a last
    line [last] without one. *)
Definition text_of (lines : list (list Z)) (last : list Z) : list Z :=
  concat (map (fun l => l ++ [10]) lines) ++ last.

(** The array after the bytes [l] have been stored from index [j] on. *)
Fixpoint blit (l : list Z) (j : nat) (result : list Z) : list Z :=
  match l with
  | [] => result
  | byte :: later => blit later (S j) (<[j := to_char byte]> result)
  end.

(** Index of the first cell of row [y]. *)
Definition row_start (y : nat) : nat := Z.to_nat (cols * Z.of_nat y).

(** The array after [lines] have been stored in the rows [y], [y + 1],
    ... *)
Fixpoint blit_lines (lines : list (list Z)) (y : nat) (result : list Z) : list Z :=
  match lines with
  | [] => result
  | l :: later => blit_lines later (S y) (blit l (row_start y) result)
  end.

(** ** Vocabulary for the stack and the types *)

(** A stack without the zeros at its bottom. *)
Fixpoint strip_zeros (s : list Z) : list Z :=
  match s with
  | [] => []
  | v :: rest =>
      match strip_zeros rest with
      | [] => if v =? 0 then [] else [v]
      | rest' => v :: rest'
      end
  end.

(** Two machines that differ at most in their stacks. *)
Definition same_but_stack (m1 m2 : machine) : Prop :=
  data m1 = data m2 /\ pos m1 = pos m2 /\ dir m1 = dir m2 /\
  output m1 = output m2 /\ input m1 = input m2 /\
  rng m1 = rng m2 /\ drawn m1 = drawn m2.

(** Two outcomes that differ at most by zeros at the bottom of the stack. *)
Definition alike (o1 o2 : outcome) : Prop :=
  match o1, o2 with
  | Running m1, Running m2 | Halted m1, Halted m2 =>
      same_but_stack m1 m2 /\ strip_zeros (stack m1) = strip_zeros (stack m2)
  | Undefined, Undefined | OutOfFuel, OutOfFuel => True
  | _, _ => False
  end.

Definition is_char (c : Z) : Prop := -128 <= c < 128.
Definition is_int32 (v : Z) : Prop := - 2 ^ 31 <= v < 2 ^ 31.

(** The state holds what its C++ types can hold: [char] cells,
    [std::int32_t] stack entries and input values, a direction out of
    [dirs]. *)
Definition well_typed (m : machine) : Prop :=
  Forall is_char (data m) /\ Forall is_int32 (stack m) /\
  (exists c, dir m = dirs c).

(** The file made of the digit characters for [digits] and of [@]. *)
Definition digit_program (digits : list Z) : list Z :=
  map (fun d => d + code "0") digits ++ [code "@"].

(** The file made of a quote, [text], a quote, one [,] per character of
    [text], and [@]. *)
Definition print_program (text : list Z) : list Z :=
  [code quote_char] ++ text ++ [code quote_char]
  ++ replicate (length text) (code ",") ++ [code "@"].

(** The characters whose cases test the flag [extensions]. *)
Definition gated (c : ascii) : bool :=
  match c with
  | "a"%char | "b"%char | "c"%char | "d"%char | "e"%char | "f"%char | "'"%char => true
  | _ => false
  end.

(** * Properties *)

(** ** Stack *)

(** C4: [pop] on the empty stack returns 0 and leaves the stack empty, on
    any stack it returns some value and some stack, and [push] always
    yields a stack, one longer, from which [pop] gives back the pushed value
    and the stack before the push. *)
Theorem pop_empty_push_total :
  pop [] = (0, []) /\
  (forall s, exists v s', pop s = (v, s')) /\
  (forall v s, exists s', push v s = s' /\ length s' = S (length s) /\ pop s' = (v, s)).
Proof.
  split; [reflexivity|]. split.
  - intros [|t r]; simpl; eauto.
  - intros v s. exists (v :: s). repeat split.
Qed.

Section Instructions.

Variable extensions : bool.
Variable fuel : nat.

(** ** Horizontal branch *)

(** C5: [_] pops a value [v] (zero from the empty stack) and sets the
    direction to west, the vector (-1, 0), when [v] is not 0 and to east,
    the vector (1, 0), when [v] is 0; grid and position are untouched. *)
Theorem underscore_pops_and_branches (m : machine) :
  exists m',
    exec extensions fuel (code "_") m = Running m' /\
    stack m' = snd (pop (stack m)) /\
    dir m' = (if fst (pop (stack m)) =? 0 then dirs East else dirs West) /\
    dirs East = (1, 0) /\ dirs West = (-1, 0) /\
    data m' = data m /\ pos m' = pos m.
Proof.
  unfold exec. change (as_ascii (code "_")) with "_"%char. cbv iota.
  destruct (pop (stack m)) as [v s] eqn:E. simpl.
  eexists. split; [reflexivity|].
  destruct (v =? 0); simpl; repeat split; reflexivity.
Qed.

(** C1, as the code has it: with an empty stack [_] pops 0 and sets the
    direction to east, the vector (1, 0), whatever the rest of the state
    is; the stack stays empty. *)
Theorem underscore_on_empty_stack_goes_east (m : machine) :
  stack m = [] ->
  exists m',
    exec extensions fuel (code "_") m = Running m' /\
    dir m' = dirs East /\ dirs East = (1, 0) /\
    stack m' = [] /\ data m' = data m /\ pos m' = pos m.
Proof.
  intros H. unfold exec. change (as_ascii (code "_")) with "_"%char. cbv iota.
  rewrite H. simpl. eexists. repeat split; reflexivity.
Qed.

(** ** Arithmetic *)

(** C6, as the code has it: each of [-], [/] and [%] pops [a] first and
    [b] second. [-] pushes the one value [b - a], the subtraction of
    [std::int32_t], which is the mathematical difference when that fits.
    [/] and [%] push the one value [b / a] or [b % a], the quotient
    truncated towards zero and the remainder that goes with it, when [a] is
    not 0 and the quotient is not the one of the least [std::int32_t] by -1;
    otherwise they push nothing that C++ defines. *)
Theorem arithmetic_operand_order (m : machine) (a b : Z) (s1 s2 : list Z) :
  pop (stack m) = (a, s1) ->
  pop s1 = (b, s2) ->
  exec extensions fuel (code "-") m = Running (with_stack (sub32 b a :: s2) m) /\
  (- 2 ^ 31 <= b - a < 2 ^ 31 -> sub32 b a = b - a) /\
  (a <> 0 -> ~ (b = INT32_MIN /\ a = -1) ->
   exec extensions fuel (code "/") m = Running (with_stack (Z.quot b a :: s2) m) /\
   exec extensions fuel (code "%") m = Running (with_stack (Z.rem b a :: s2) m)) /\
  (a = 0 \/ (b = INT32_MIN /\ a = -1) ->
   exec extensions fuel (code "/") m = Undefined /\
   exec extensions fuel (code "%") m = Undefined).
Proof.
  intros Ha Hb. split; [|split; [|split]].
  - unfold exec. change (as_ascii (code "-")) with "-"%char. cbv iota.
    rewrite Ha, Hb. reflexivity.
  - intros Hr. unfold sub32, int32.
    replace (b - a + 2 ^ 31) with (b - a + 2 ^ 31 + 0 * 2 ^ 32) by lia.
    rewrite Z.mod_add by lia. rewrite Z.mod_small by lia. lia.
  - intros Hz Hov.
    assert (Hd : div32 b a = Some (Z.quot b a) /\ rem32 b a = Some (Z.rem b a)).
    { unfold div32, rem32.
      destruct (a =? 0) eqn:E0; [apply Z.eqb_eq in E0; contradiction|].
      destruct ((b =? INT32_MIN) && (a =? -1)) eqn:E1; [|split; reflexivity].
      apply andb_true_iff in E1 as [E1 E2].
      apply Z.eqb_eq in E1, E2. exfalso. apply Hov. split; assumption. }
    destruct Hd as [Hq Hr]. split.
    + unfold exec. change (as_ascii (code "/")) with "/"%char. cbv iota.
      rewrite Ha, Hb, Hq. reflexivity.
    + unfold exec. change (as_ascii (code "%")) with "%"%char. cbv iota.
      rewrite Ha, Hb, Hr. reflexivity.
  - intros Hbad.
    assert (Hd : div32 b a = None /\ rem32 b a = None).
    { unfold div32, rem32. destruct Hbad as [->|[-> ->]]; split; reflexivity. }
    destruct Hd as [Hq Hr]. split.
    + unfold exec. change (as_ascii (code "/")) with "/"%char. cbv iota.
      rewrite Ha, Hb, Hq. reflexivity.
    + unfold exec. change (as_ascii (code "%")) with "%"%char. cbv iota.
      rewrite Ha, Hb, Hr. reflexivity.
Qed.

(** ** Swap *)

(** C7: [\] exchanges the two topmost values of a stack that holds at
    least two; on a stack holding only [v] it leaves [v] at the bottom with
    a 0 on top; on the empty stack it changes nothing. *)
Theorem swap_top_two (m : machine) :
  (forall a b rest, stack m = a :: b :: rest ->
     exec extensions fuel (code "\") m = Running (with_stack (b :: a :: rest) m)) /\
  (forall v, stack m = [v] ->
     exec extensions fuel (code "\") m = Running (with_stack [0; v] m)) /\
  (stack m = [] -> exec extensions fuel (code "\") m = Running m).
Proof.
  unfold exec. change (as_ascii (code "\")) with "\"%char. cbv iota.
  repeat split.
  - intros a b rest H. rewrite H. reflexivity.
  - intros v H. rewrite H. reflexivity.
  - intros H. rewrite H. reflexivity.
Qed.

End Instructions.

(** ** Grid access: [g] and [p] *)

Lemma to_char_range (v : Z) : -128 <= to_char v < 128.
Proof. unfold to_char. pose proof (Z.mod_pos_bound (v + 128) 256). lia. Qed.

Lemma to_char_small (v : Z) : -128 <= v < 128 -> to_char v = v.
Proof. intros H. unfold to_char. rewrite Z.mod_small by lia. lia. Qed.

Lemma to_char_fixpoint (v : Z) : to_char v = v <-> -128 <= v < 128.
Proof.
  split; [|apply to_char_small].
  intros H. rewrite <- H. apply to_char_range.
Qed.

Lemma to_char_low_bits (v : Z) : Z.land (to_char v) 255 = Z.land v 255.
Proof.
  change 255 with (Z.ones 8). rewrite !Z.land_ones by lia.
  unfold to_char. change (2 ^ 8) with 256.
  rewrite Zminus_mod, Zmod_mod, <- Zminus_mod.
  f_equal. lia.
Qed.

Lemma to_char_sign_extension (v : Z) :
  to_char v = Z.land v 255 - (if Z.testbit v 7 then 256 else 0).
Proof.
  change 255 with (Z.ones 8). rewrite Z.land_ones by lia.
  pose proof (Z.testbit_spec' v 7) as Hb. unfold to_char.
  change (2 ^ 7) with 128 in Hb. change (2 ^ 8) with 256.
  destruct (Z.testbit v 7); simpl in Hb; specialize (Hb ltac:(lia));
    Z.to_euclidean_division_equations; lia.
Qed.

Lemma cell_index_in_program (x y : Z) :
  0 <= x < max_col_size -> 0 <= y < max_row_size ->
  cell_index x y = y * cols + x /\ (Z.to_nat (cell_index x y) < data_size)%nat.
Proof.
  unfold cell_index, to_size_t, cols, data_size, max_col_size, max_row_size.
  intros Hx Hy. rewrite Z.mod_small by lia. split; [reflexivity|].
  change (Z.to_nat (25 * (80 + 1))) with 2025%nat. lia.
Qed.

Lemma in_program_true (x y : Z) :
  0 <= x < max_col_size -> 0 <= y < max_row_size -> in_program x y = true.
Proof.
  intros Hx Hy. unfold in_program.
  rewrite !andb_true_iff, !Z.leb_le, !Z.ltb_lt. lia.
Qed.

Lemma in_program_false (x y : Z) :
  x < 0 \/ x >= max_col_size \/ y < 0 \/ y >= max_row_size -> in_program x y = false.
Proof.
  intros H. unfold in_program.
  destruct (0 <=? x) eqn:E1; [|reflexivity].
  destruct (x <? max_col_size) eqn:E2; [|reflexivity].
  destruct (0 <=? y) eqn:E3; [|reflexivity].
  destruct (y <? max_row_size) eqn:E4; [|reflexivity].
  apply Z.leb_le in E1, E3. apply Z.ltb_lt in E2, E4. lia.
Qed.

Lemma at_index_store (d : list Z) (i v : Z) :
  (Z.to_nat i < length d)%nat -> at_index (store d i v) i = to_char v.
Proof.
  intros H. unfold at_index, store.
  rewrite list_lookup_insert_eq by exact H. reflexivity.
Qed.

Section GridAccess.

Variable extensions : bool.
Variable fuel : nat.

(** What [p] does with in-bounds coordinates, and what a later [g] at the
    same coordinates reads from the grid [p] left. *)
Lemma put_then_get (m : machine) (x y v : Z) (rest : list Z) :
  length (data m) = data_size ->
  0 <= x < max_col_size -> 0 <= y < max_row_size ->
  stack m = y :: x :: v :: rest ->
  exists m1,
    exec extensions fuel (code "p") m = Running m1 /\
    stack m1 = rest /\ length (data m1) = data_size /\
    forall m2 rest2,
      data m2 = data m1 -> stack m2 = y :: x :: rest2 ->
      exec extensions fuel (code "g") m2 =
        Running (with_stack (to_char v :: rest2) m2).
Proof.
  intros Hlen Hx Hy Hs.
  pose proof (in_program_true x y Hx Hy) as Hin.
  destruct (cell_index_in_program x y Hx Hy) as [_ Hi].
  eexists. split.
  { unfold exec. change (as_ascii (code "p")) with "p"%char. cbv iota.
    rewrite Hs. simpl. rewrite Hin. reflexivity. }
  split; [reflexivity|]. split.
  { simpl. unfold store. rewrite length_insert. exact Hlen. }
  intros m2 rest2 Hd Hs2.
  unfold exec. change (as_ascii (code "g")) with "g"%char. cbv iota.
  rewrite Hs2. simpl. rewrite Hin, Hd. simpl.
  rewrite at_index_store by (rewrite Hlen; exact Hi). reflexivity.
Qed.

(** C2, as the code has it: for in-bounds coordinates and a value [v] that
    a [char] can hold (-128 to 127), [p] followed by [g] at the same
    coordinates pushes exactly [v]. *)
Theorem put_then_get_round_trip (m : machine) (x y v : Z) (rest : list Z) :
  length (data m) = data_size ->
  0 <= x < max_col_size -> 0 <= y < max_row_size ->
  -128 <= v < 128 ->
  stack m = y :: x :: v :: rest ->
  exists m1,
    exec extensions fuel (code "p") m = Running m1 /\
    stack m1 = rest /\
    forall m2 rest2,
      data m2 = data m1 -> stack m2 = y :: x :: rest2 ->
      exec extensions fuel (code "g") m2 = Running (with_stack (v :: rest2) m2).
Proof.
  intros Hlen Hx Hy Hv Hs.
  destruct (put_then_get m x y v rest Hlen Hx Hy Hs) as (m1 & Hp & Hs1 & _ & Hg).
  exists m1. repeat split; try assumption.
  intros m2 rest2 Hd Hs2. rewrite (Hg m2 rest2 Hd Hs2).
  rewrite to_char_small by exact Hv. reflexivity.
Qed.

(** C9: for in-bounds coordinates [p] stores [v] converted to [char], so a
    later [g] at the same coordinates pushes [to_char v]: the low 8 bits of
    [v] with bit 7 as the sign, a value between -128 and 127 that equals
    [v] exactly when [v] is itself between -128 and 127. *)
Theorem put_stores_char_of_value (m : machine) (x y v : Z) (rest : list Z) :
  length (data m) = data_size ->
  0 <= x < max_col_size -> 0 <= y < max_row_size ->
  stack m = y :: x :: v :: rest ->
  exists m1,
    exec extensions fuel (code "p") m = Running m1 /\
    stack m1 = rest /\
    (forall m2 rest2,
       data m2 = data m1 -> stack m2 = y :: x :: rest2 ->
       exec extensions fuel (code "g") m2 =
         Running (with_stack (to_char v :: rest2) m2)) /\
    to_char v = Z.land v 255 - (if Z.testbit v 7 then 256 else 0) /\
    -128 <= to_char v < 128 /\
    Z.land (to_char v) 255 = Z.land v 255 /\
    (to_char v = v <-> -128 <= v < 128).
Proof.
  intros Hlen Hx Hy Hs.
  destruct (put_then_get m x y v rest Hlen Hx Hy Hs) as (m1 & Hp & Hs1 & _ & Hg).
  exists m1.
  split; [exact Hp|]. split; [exact Hs1|]. split; [exact Hg|].
  split; [apply to_char_sign_extension|].
  split; [apply to_char_range|].
  split; [apply to_char_low_bits|apply to_char_fixpoint].
Qed.

(** C8: when [x] or [y] lies outside the program area, [p] pops its three
    operands and leaves every cell of the grid as it was. *)
Theorem put_out_of_bounds_is_discarded (m : machine) (x y v : Z) (s1 s2 s3 : list Z) :
  pop (stack m) = (y, s1) -> pop s1 = (x, s2) -> pop s2 = (v, s3) ->
  x < 0 \/ x >= max_col_size \/ y < 0 \/ y >= max_row_size ->
  exists m1,
    exec extensions fuel (code "p") m = Running m1 /\
    data m1 = data m /\ stack m1 = s3 /\
    pos m1 = pos m /\ dir m1 = dir m.
Proof.
  intros Hy Hx Hv Hout.
  unfold exec. change (as_ascii (code "p")) with "p"%char. cbv iota.
  rewrite Hy, Hx, Hv, (in_program_false x y Hout).
  eexists. repeat split; reflexivity.
Qed.

End GridAccess.

(** ** Cursor movement *)

Lemma cols_small : 0 < cols < 2 ^ 62.
Proof. unfold cols, max_col_size. lia. Qed.

Lemma rows_small : 0 < rows < 2 ^ 62.
Proof. unfold rows, max_row_size. lia. Qed.

Lemma wrap_axis_range (p d n : Z) : 0 < n < 2 ^ 63 -> 0 <= wrap_axis p d n < n.
Proof.
  intros Hn. unfold wrap_axis, to_ptrdiff_t.
  set (t := to_size_t (to_size_t (p + d) mod n + n) mod n).
  assert (Ht : 0 <= t < n) by (apply Z.mod_pos_bound; lia).
  replace (t + 2 ^ 63) with (t + 2 ^ 63 + 0 * 2 ^ 64) by lia.
  rewrite Z.mod_add by lia. rewrite Z.mod_small by lia. lia.
Qed.

(** As long as [p + d] is not negative the conversion to [std::size_t] is
    harmless and [wrap_axis] is the remainder. *)
Lemma wrap_axis_forward (p d n : Z) :
  0 < n < 2 ^ 62 -> 0 <= p + d < 2 ^ 63 -> wrap_axis p d n = (p + d) mod n.
Proof.
  intros Hn Hs. unfold wrap_axis, to_ptrdiff_t, to_size_t.
  rewrite (Z.mod_small (p + d)) by lia.
  assert (Hr : 0 <= (p + d) mod n < n) by (apply Z.mod_pos_bound; lia).
  rewrite (Z.mod_small ((p + d) mod n + n)) by lia.
  replace ((p + d) mod n + n) with ((p + d) mod n + 1 * n) by lia.
  rewrite Z.mod_add by lia. rewrite Z.mod_mod by lia.
  rewrite (Z.mod_small ((p + d) mod n + 2 ^ 63)) by lia. lia.
Qed.

Lemma wrap_axis_backward (p n : Z) :
  0 < n < 2 ^ 62 -> 1 <= p < n -> wrap_axis p (-1) n = p - 1.
Proof.
  intros Hn Hp. rewrite wrap_axis_forward by lia. apply Z.mod_small. lia.
Qed.

Lemma wrap_axis_still (p n : Z) :
  0 < n < 2 ^ 62 -> 0 <= p < n -> wrap_axis p 0 n = p.
Proof.
  intros Hn Hp. rewrite wrap_axis_forward by lia.
  rewrite Z.add_0_r. apply Z.mod_small. lia.
Qed.

(** Stepping back from coordinate 0: the sum -1 becomes 2^64 - 1 before the
    remainder is taken, and the cursor lands in column 51 or row 15. *)
Lemma wrap_axis_below_zero :
  wrap_axis 0 (-1) cols = 51 /\ wrap_axis 0 (-1) rows = 15.
Proof. split; reflexivity. Qed.

Lemma wrap_axis_is_64_bits (p d n : Z) : wrap_axis p d n = wrap_axis_bits 64 p d n.
Proof. reflexivity. Qed.

Lemma pow2_not_multiple (n : nat) :
  2 ^ Z.of_nat n mod 3 <> 0 /\ 2 ^ Z.of_nat n mod 5 <> 0.
Proof.
  induction n as [|n [IH3 IH5]]; [split; discriminate|].
  rewrite Nat2Z.inj_succ, Z.pow_succ_r by lia.
  set (x := 2 ^ Z.of_nat n) in *.
  split; Z.to_euclidean_division_equations; lia.
Qed.

Lemma wrap_axis_bits_below_zero (w n : Z) :
  8 <= w -> 0 < n < 128 ->
  wrap_axis_bits w 0 (-1) n = (2 ^ w - 1) mod n.
Proof.
  intros Hw Hn. unfold wrap_axis_bits.
  assert (Hhalf : 2 ^ w = 2 * 2 ^ (w - 1)).
  { rewrite <- Z.pow_succ_r by lia. f_equal. lia. }
  assert (Hbig : 128 <= 2 ^ (w - 1)).
  { change 128 with (2 ^ 7). apply Z.pow_le_mono_r; lia. }
  set (h := 2 ^ (w - 1)) in *. rewrite Hhalf.
  replace (0 + -1) with (2 * h - 1 + (-1) * (2 * h)) by lia.
  rewrite Z.mod_add by lia. rewrite (Z.mod_small (2 * h - 1)) by lia.
  assert (Hr : 0 <= (2 * h - 1) mod n < n) by (apply Z.mod_pos_bound; lia).
  set (r := (2 * h - 1) mod n) in *.
  rewrite (Z.mod_small (r + n)) by lia.
  replace (r + n) with (r + 1 * n) by lia.
  rewrite Z.mod_add by lia. rewrite (Z.mod_small r n) by lia.
  rewrite Z.mod_small by lia. lia.
Qed.

(** X4: take an implementation whose [int] has [i] bits and whose
    [std::size_t] and [std::ptrdiff_t] have [w] bits, 16 at least each. When
    [std::size_t] is as wide as [int] or wider, the step back from
    coordinate 0 misses the last column and the last row, since 2^w is a
    multiple of neither 81 nor 25; with 64 bits it lands in column 51 and
    row 15, as [wrap_axis] has it. Only when [std::size_t] is narrower than
    [int] does the step reach the last column and the last row. *)
Theorem step_below_zero_wraps_only_under_promotion (i w : Z) :
  16 <= i -> 16 <= w ->
  (i <= w ->
   wrap_axis_on i w 0 (-1) cols <> cols - 1 /\
   wrap_axis_on i w 0 (-1) rows <> rows - 1) /\
  (w < i ->
   wrap_axis_on i w 0 (-1) cols = cols - 1 /\
   wrap_axis_on i w 0 (-1) rows = rows - 1) /\
  (i <= 64 ->
   wrap_axis_on i 64 0 (-1) cols = 51 /\
   wrap_axis_on i 64 0 (-1) rows = 15 /\
   forall p d n, wrap_axis_on i 64 p d n = wrap_axis p d n).
Proof.
  intros Hi Hw. split; [|split].
  - intros Hle. unfold wrap_axis_on.
    destruct (Z.ltb_spec w i) as [Hlt|_]; [lia|].
    destruct (pow2_not_multiple (Z.to_nat w)) as [H3 H5].
    rewrite Z2Nat.id in H3, H5 by lia.
    rewrite !wrap_axis_bits_below_zero
      by (try lia; unfold cols, rows, max_col_size, max_row_size; lia).
    unfold cols, rows, max_col_size, max_row_size.
    set (x := 2 ^ w) in *.
    split; Z.to_euclidean_division_equations; lia.
  - intros Hlt. unfold wrap_axis_on.
    destruct (Z.ltb_spec w i) as [_|Hle]; [|lia].
    split; reflexivity.
  - intros Hle. unfold wrap_axis_on.
    destruct (Z.ltb_spec 64 i) as [Hlt|_]; [lia|].
    split; [reflexivity|]. split; reflexivity.
Qed.

Lemma dir_advance (k : nat) (m : machine) : dir (advance k m) = dir m.
Proof. induction k as [|k IH]; [reflexivity|exact IH]. Qed.

Lemma data_advance (k : nat) (m : machine) : data (advance k m) = data m.
Proof. induction k as [|k IH]; [reflexivity|exact IH]. Qed.

Lemma advance_east (k : nat) (m : machine) :
  dir m = dirs East -> in_grid (pos m) ->
  pos (advance k m) = ((fst (pos m) + Z.of_nat k) mod cols, snd (pos m)).
Proof.
  intros Hd [Hx Hy]. pose proof cols_small as Hc. pose proof rows_small as Hr.
  induction k as [|k IH].
  - simpl. rewrite Z.add_0_r, Z.mod_small by lia. destruct (pos m); reflexivity.
  - change (advance (S k) m) with (move (advance k m)).
    unfold move at 1. simpl pos. rewrite dir_advance, Hd, IH. simpl.
    f_equal.
    + assert (0 <= (fst (pos m) + Z.of_nat k) mod cols < cols)
        by (apply Z.mod_pos_bound; lia).
      rewrite wrap_axis_forward by lia.
      rewrite Z.add_mod_idemp_l by lia. f_equal. lia.
    + apply wrap_axis_still; lia.
Qed.

Lemma advance_south (k : nat) (m : machine) :
  dir m = dirs South -> in_grid (pos m) ->
  pos (advance k m) = (fst (pos m), (snd (pos m) + Z.of_nat k) mod rows).
Proof.
  intros Hd [Hx Hy]. pose proof cols_small as Hc. pose proof rows_small as Hr.
  induction k as [|k IH].
  - simpl. rewrite Z.add_0_r, Z.mod_small by lia. destruct (pos m); reflexivity.
  - change (advance (S k) m) with (move (advance k m)).
    unfold move at 1. simpl pos. rewrite dir_advance, Hd, IH. simpl.
    f_equal.
    + apply wrap_axis_still; lia.
    + assert (0 <= (snd (pos m) + Z.of_nat k) mod rows < rows)
        by (apply Z.mod_pos_bound; lia).
      rewrite wrap_axis_forward by lia.
      rewrite Z.add_mod_idemp_l by lia. f_equal. lia.
Qed.

Lemma east_trip_closes (m : machine) :
  in_grid (pos m) -> dir m = dirs East -> pos (advance (Z.to_nat cols) m) = pos m.
Proof.
  intros Hg Hd. pose proof cols_small as Hc. pose proof Hg as [Hx Hy].
  rewrite advance_east by assumption.
  rewrite Z2Nat.id by lia.
  replace (fst (pos m) + cols) with (fst (pos m) + 1 * cols) by lia.
  rewrite Z.mod_add, Z.mod_small by lia. destruct (pos m); reflexivity.
Qed.

Lemma south_trip_closes (m : machine) :
  in_grid (pos m) -> dir m = dirs South -> pos (advance (Z.to_nat rows) m) = pos m.
Proof.
  intros Hg Hd. pose proof rows_small as Hr. pose proof Hg as [Hx Hy].
  rewrite advance_south by assumption.
  rewrite Z2Nat.id by lia.
  replace (snd (pos m) + rows) with (snd (pos m) + 1 * rows) by lia.
  rewrite Z.mod_add, Z.mod_small by lia. destruct (pos m); reflexivity.
Qed.

(** X1: whatever the state, [move] leaves the cursor inside the grid. *)
Theorem move_keeps_cursor_in_grid (m : machine) : in_grid (pos (move m)).
Proof.
  pose proof cols_small. pose proof rows_small.
  split; simpl; apply wrap_axis_range; lia.
Qed.

(** X2: from a position inside the grid, [cols] moves east and [rows]
    moves south each lead back to the position they started from. *)
Theorem east_and_south_round_trip (m : machine) :
  in_grid (pos m) ->
  (dir m = dirs East -> pos (advance (Z.to_nat cols) m) = pos m) /\
  (dir m = dirs South -> pos (advance (Z.to_nat rows) m) = pos m).
Proof.
  intros Hg. split; intros Hd.
  - apply east_trip_closes; assumption.
  - apply south_trip_closes; assumption.
Qed.

Lemma advance_west (k : nat) (m : machine) :
  dir m = dirs West -> fst (pos (advance k m)) = steps_back cols k (fst (pos m)).
Proof.
  intros Hd. induction k as [|k IH]; [reflexivity|].
  change (advance (S k) m) with (move (advance k m)).
  change (steps_back cols (S k) (fst (pos m)))
    with (wrap_axis (steps_back cols k (fst (pos m))) (-1) cols).
  rewrite <- IH. simpl. rewrite dir_advance, Hd. reflexivity.
Qed.

Lemma advance_north (k : nat) (m : machine) :
  dir m = dirs North -> snd (pos (advance k m)) = steps_back rows k (snd (pos m)).
Proof.
  intros Hd. induction k as [|k IH]; [reflexivity|].
  change (advance (S k) m) with (move (advance k m)).
  change (steps_back rows (S k) (snd (pos m)))
    with (wrap_axis (steps_back rows k (snd (pos m))) (-1) rows).
  rewrite <- IH. simpl. rewrite dir_advance, Hd. reflexivity.
Qed.

(** A check over the coordinates 0 to [n - 1] decides a property of all
    of them. *)
Lemma all_coordinates (n : nat) (f : Z -> bool) (p : Z) :
  forallb (fun i => f (Z.of_nat i)) (seq 0 n) = true ->
  0 <= p < Z.of_nat n -> f p = true.
Proof.
  intros Hall Hp. rewrite forallb_forall in Hall.
  specialize (Hall (Z.to_nat p)). rewrite Z2Nat.id in Hall by lia.
  apply Hall. apply in_seq. lia.
Qed.

(** X6: heading west, [cols] moves never lead back to the column they
    started from, whichever column of the grid that is; heading north,
    [rows] moves never lead back to the starting row. *)
Theorem west_and_north_trips_never_close (m : machine) :
  in_grid (pos m) ->
  (dir m = dirs West -> fst (pos (advance (Z.to_nat cols) m)) <> fst (pos m)) /\
  (dir m = dirs North -> snd (pos (advance (Z.to_nat rows) m)) <> snd (pos m)).
Proof.
  intros [Hx Hy]. split; intros Hd.
  - rewrite advance_west by exact Hd.
    assert (Hne : negb (steps_back cols (Z.to_nat cols) (fst (pos m)) =? fst (pos m)) = true).
    { apply (all_coordinates 81 (fun p => negb (steps_back cols (Z.to_nat cols) p =? p))).
      - vm_compute. reflexivity.
      - exact Hx. }
    intros E. rewrite E, Z.eqb_refl in Hne. simpl in Hne. discriminate Hne.
  - rewrite advance_north by exact Hd.
    assert (Hne : negb (steps_back rows (Z.to_nat rows) (snd (pos m)) =? snd (pos m)) = true).
    { apply (all_coordinates 25 (fun p => negb (steps_back rows (Z.to_nat rows) p =? p))).
      - vm_compute. reflexivity.
      - exact Hy. }
    intros E. rewrite E, Z.eqb_refl in Hne. simpl in Hne. discriminate Hne.
Qed.

(** C3, on the code: the round trip does not close westward or northward.
    One move west from column 0 lands in column 51 and one move north from
    row 0 in row 15, so from the origin [cols] moves west end in column 23
    and [rows] moves north in row 7; the one-character program [<] takes
    the cursor from the origin to column 51 in its first iteration. *)
Theorem west_and_north_round_trip_open :
  pos idle = (0, 0) /\
  pos (move (with_dir (dirs West) idle)) = (51, 0) /\
  pos (move (with_dir (dirs North) idle)) = (0, 15) /\
  pos (advance (Z.to_nat cols) (with_dir (dirs West) idle)) = (23, 0) /\
  pos (advance (Z.to_nat rows) (with_dir (dirs North) idle)) = (0, 7) /\
  interpret [code "<"] false [] (fun _ => South) 0 1 = Running after_turn /\
  pos after_turn = (51, 0) /\ dir after_turn = dirs West.
Proof.
  repeat split; vm_compute; reflexivity.
Qed.

(** ** String mode *)

Lemma advance_with_stack (k : nat) (s : list Z) (m : machine) :
  advance k (with_stack s m) = with_stack s (advance k m).
Proof.
  induction k as [|k IH]; [reflexivity|].
  change (advance (S k) (with_stack s m)) with (move (advance k (with_stack s m))).
  rewrite IH. reflexivity.
Qed.

Lemma advance_move (k : nat) (m : machine) : advance k (move m) = advance (S k) m.
Proof. unfold advance. symmetry. apply Nat.iter_succ_r. Qed.

Lemma fetch_same_cell (m1 m2 : machine) :
  data m1 = data m2 -> pos m1 = pos m2 -> fetch m1 = fetch m2.
Proof. intros Hd Hp. unfold fetch. rewrite Hd, Hp. reflexivity. Qed.

(** The loop stops as soon as the cursor's path meets a quote. *)
Lemma scan_finds_quote (k : nat) : forall m : machine,
  fetch (advance k m) = code quote_char ->
  exists m', scan (S k) m = Some m' /\ fetch m' = code quote_char /\
             data m' = data m /\ dir m' = dir m.
Proof.
  induction k as [|k IH]; intros m Hq.
  - exists m. simpl in *. rewrite Hq. repeat split; reflexivity.
  - change (scan (S (S k)) m) with
      (if fetch m =? code quote_char then Some m
       else scan (S k) (move (with_stack (push (fetch m) (stack m)) m))).
    destruct (Z.eqb_spec (fetch m) (code quote_char)) as [E|_].
    + exists m. repeat split; [exact E].
    + destruct (IH (move (with_stack (push (fetch m) (stack m)) m)))
        as (m' & Hs & Hf & Hd & Hdir).
      { rewrite advance_move, advance_with_stack. exact Hq. }
      exists m'. repeat split; assumption.
Qed.

Lemma scan_fuel_mono (k : nat) : forall (k' : nat) (m r : machine),
  scan k m = Some r -> (k <= k')%nat -> scan k' m = Some r.
Proof.
  induction k as [|k IH]; intros k' m r Hs Hle; [discriminate|].
  destruct k' as [|k']; [lia|].
  simpl in *. destruct (fetch m =? code quote_char); [exact Hs|].
  apply IH; [exact Hs|lia].
Qed.

(** Heading west in row [y], a cursor in columns 0 to [hi] stays there
    for ever once [hi] is at least 51; if none of these cells holds a quote
    the loop uses up any fuel. *)
Lemma scan_trapped_west (hi y : Z) (fuel : nat) : forall m : machine,
  51 <= hi < cols -> 0 <= y < rows ->
  dir m = dirs West -> snd (pos m) = y -> 0 <= fst (pos m) <= hi ->
  (forall x, 0 <= x <= hi -> at_index (data m) (cell_index x y) <> code quote_char) ->
  scan fuel m = None.
Proof.
  induction fuel as [|fuel IH]; intros m Hhi Hy Hd Hrow Hcol Hfree; [reflexivity|].
  pose proof cols_small as Hc. pose proof rows_small as Hr.
  simpl. unfold fetch at 1. rewrite Hrow.
  destruct (Z.eqb_spec (at_index (data m) (cell_index (fst (pos m)) y)) (code quote_char))
    as [E|_]; [exfalso; exact (Hfree _ Hcol E)|].
  apply IH; try assumption.
  - simpl. rewrite Hd, Hrow. simpl. apply wrap_axis_still; lia.
  - simpl. rewrite Hd. simpl.
    destruct (Z.eq_dec (fst (pos m)) 0) as [E0|Hne].
    + rewrite E0. change (wrap_axis 0 (-1) cols) with 51. lia.
    + rewrite wrap_axis_backward by lia. lia.
Qed.

Lemma run_app (extensions : bool) (fuel : nat) (a b : nat) : forall m : machine,
  run extensions fuel (a + b) m =
  match run extensions fuel a m with
  | Running m' => run extensions fuel b m'
  | o => o
  end.
Proof.
  induction a as [|a IH]; intros m; [reflexivity|].
  simpl. destruct (step extensions fuel m); try reflexivity. apply IH.
Qed.

Lemma run_one (extensions : bool) (fuel : nat) (m : machine) :
  run extensions fuel 1 m =
  match step extensions fuel m with
  | Running m' => Running m'
  | o => o
  end.
Proof. reflexivity. Qed.

Lemma interpret_unfold (bytes : list Z) (extensions : bool)
    (stdin : list Z) (gen : nat -> cardinal) (fuel n : nat) (grid : list Z) :
  readfile bytes = Some grid ->
  interpret bytes extensions stdin gen fuel n
  = run extensions fuel n (initial grid stdin gen).
Proof. intros H. unfold interpret. rewrite H. reflexivity. Qed.

Lemma loaded_grid (bytes grid : list Z) : readfile bytes = Some grid -> loaded bytes = grid.
Proof. intros H. unfold loaded. rewrite H. reflexivity. Qed.

Lemma trap_source_loads : readfile trap_source = Some (loaded trap_source).
Proof. vm_compute. reflexivity. Qed.

(** Columns 0 to 58 of the first row of [trap_source] hold no quote. *)
Lemma trap_row_free (x : Z) :
  0 <= x <= 58 -> at_index (loaded trap_source) (cell_index x 0) <> code quote_char.
Proof.
  intros Hx.
  assert (Hall : forallb
            (fun n => negb (at_index (loaded trap_source) (cell_index (Z.of_nat n) 0)
                            =? code quote_char))
            (seq 0 59) = true) by (vm_compute; reflexivity).
  rewrite forallb_forall in Hall.
  specialize (Hall (Z.to_nat x)). rewrite Z2Nat.id in Hall by lia.
  intros E. rewrite E, Z.eqb_refl in Hall.
  assert (Hin : In (Z.to_nat x) (seq 0 59)) by (apply in_seq; lia).
  specialize (Hall Hin). simpl in Hall. discriminate Hall.
Qed.

(** X3: from a quote cell inside the grid, heading east or south, the
    string loop stops, at a quote, within [cols] iterations, whatever else
    the grid holds. *)
Theorem string_closes_east_and_south (extensions : bool) (fuel : nat) (m : machine) :
  in_grid (pos m) ->
  fetch m = code quote_char ->
  dir m = dirs East \/ dir m = dirs South ->
  (Z.to_nat cols <= fuel)%nat ->
  exists m',
    exec extensions fuel (code quote_char) m = Running m' /\
    fetch m' = code quote_char /\ data m' = data m /\ dir m' = dir m.
Proof.
  intros Hg Hq Hd Hfuel.
  assert (Hs : exists k m', (S k <= Z.to_nat cols)%nat /\
            scan (S k) (move m) = Some m' /\
            fetch m' = code quote_char /\ data m' = data m /\ dir m' = dir m).
  { destruct Hd as [Hd|Hd].
    - exists 80%nat.
      destruct (scan_finds_quote 80 (move m)) as (m' & H1 & H2 & H3 & H4).
      { rewrite advance_move, <- Hq. apply fetch_same_cell.
        - apply data_advance.
        - apply (east_trip_closes m Hg Hd). }
      exists m'. split; [vm_compute; lia|]. repeat split; assumption.
    - exists 24%nat.
      destruct (scan_finds_quote 24 (move m)) as (m' & H1 & H2 & H3 & H4).
      { rewrite advance_move, <- Hq. apply fetch_same_cell.
        - apply data_advance.
        - apply (south_trip_closes m Hg Hd). }
      exists m'. split; [vm_compute; lia|]. repeat split; assumption. }
  destruct Hs as (k & m' & Hk & Hs & Hf & Hdat & Hdir).
  exists m'. split; [|repeat split; assumption].
  unfold exec. change (as_ascii (code quote_char)) with quote_char. cbv iota.
  rewrite (scan_fuel_mono (S k) fuel (move m) m' Hs) by lia. reflexivity.
Qed.

Lemma trap_reaches_quote
    (extensions : bool) (stdin : list Z) (gen : nat -> cardinal) (fuel : nat) :
  interpret trap_source extensions stdin gen fuel 60 = Running (trap_state stdin gen).
Proof. vm_compute. reflexivity. Qed.

Lemma trap_state_on_quote (stdin : list Z) (gen : nat -> cardinal) :
  fetch (trap_state stdin gen) = code quote_char.
Proof. vm_compute. reflexivity. Qed.

Lemma trap_state_in_grid (stdin : list Z) (gen : nat -> cardinal) :
  in_grid (pos (trap_state stdin gen)).
Proof. split; simpl; unfold cols, rows, max_col_size, max_row_size; lia. Qed.

Lemma trap_scan_diverges (stdin : list Z) (gen : nat -> cardinal) (fuel : nat) :
  scan fuel (move (trap_state stdin gen)) = None.
Proof.
  apply (scan_trapped_west 58 0).
  - unfold cols, max_col_size. lia.
  - unfold rows, max_row_size. lia.
  - reflexivity.
  - reflexivity.
  - change (fst (pos (move (trap_state stdin gen)))) with 58. lia.
  - intros x Hx. apply trap_row_free. exact Hx.
Qed.

Lemma trap_exec_diverges
    (extensions : bool) (stdin : list Z) (gen : nat -> cardinal) (fuel : nat) :
  exec extensions fuel (code quote_char) (trap_state stdin gen) = OutOfFuel.
Proof.
  unfold exec. change (as_ascii (code quote_char)) with quote_char. cbv iota.
  rewrite trap_scan_diverges. reflexivity.
Qed.

(** C10, on the code: heading west the string loop need not stop. The
    program [trap_source] reaches, after 60 iterations of the dispatch loop,
    its quote in column 59 with the direction west; from there the loop
    never meets a quote again, whatever fuel it is given, and so the run
    never completes its 61st iteration. *)
Theorem string_loop_diverges_westward
    (extensions : bool) (stdin : list Z) (gen : nat -> cardinal) (fuel : nat) :
  interpret trap_source extensions stdin gen fuel 60 = Running (trap_state stdin gen) /\
  fetch (trap_state stdin gen) = code quote_char /\
  in_grid (pos (trap_state stdin gen)) /\
  scan fuel (move (trap_state stdin gen)) = None /\
  exec extensions fuel (code quote_char) (trap_state stdin gen) = OutOfFuel /\
  interpret trap_source extensions stdin gen fuel 61 = OutOfFuel.
Proof.
  split; [apply trap_reaches_quote|]. split; [apply trap_state_on_quote|].
  split; [apply trap_state_in_grid|]. split; [apply trap_scan_diverges|].
  split; [apply trap_exec_diverges|].
  rewrite (interpret_unfold _ _ _ _ _ _ _ trap_source_loads).
  replace 61%nat with (60 + 1)%nat by reflexivity.
  rewrite run_app.
  rewrite <- (interpret_unfold trap_source extensions stdin gen fuel 60 _ trap_source_loads).
  rewrite trap_reaches_quote, run_one.
  unfold step. rewrite trap_state_on_quote, trap_exec_diverges. reflexivity.
Qed.

(** ** Invariants of a run *)

Lemma copy_bytes_size (bytes : list Z) : forall (j ncols : Z) (result grid : list Z),
  copy_bytes bytes j ncols result = Some grid -> length grid = length result.
Proof.
  induction bytes as [|byte later IH]; intros j ncols result grid H.
  - injection H as <-. reflexivity.
  - cbn [copy_bytes] in H.
    destruct (Z.land (byte mod 256) 192 =? 128); [exact (IH _ _ _ _ H)|].
    destruct (to_char byte =? 10); [exact (IH _ _ _ _ H)|].
    destruct (j <? Z.of_nat data_size); [|discriminate H].
    rewrite (IH _ _ _ _ H). apply length_insert.
Qed.

Lemma readfile_size (bytes grid : list Z) :
  readfile bytes = Some grid -> length grid = data_size.
Proof.
  unfold readfile. intros H. rewrite (copy_bytes_size _ _ _ _ _ H).
  apply length_replicate.
Qed.

Lemma scan_keeps_grid_size (fuel : nat) : forall m m' : machine,
  scan fuel m = Some m' -> length (data m') = length (data m).
Proof.
  induction fuel as [|fuel IH]; intros m m' H; [discriminate|].
  simpl in H. destruct (fetch m =? code quote_char).
  - injection H as <-. reflexivity.
  - apply IH in H. exact H.
Qed.

Lemma exec_keeps_grid_size (extensions : bool) (fuel : nat) (ins : Z) (m m' : machine) :
  exec extensions fuel ins m = Running m' -> length (data m') = length (data m).
Proof.
  unfold exec.
  destruct (as_ascii ins) as [[] [] [] [] [] [] [] []];
    repeat match goal with
           | |- context [pop ?s] => destruct (pop s)
           end;
    try (intros H; injection H as <-; reflexivity);
    try discriminate.
  all: repeat match goal with
              | |- context [match ?x with _ => _ end] => destruct x eqn:?
              end.
  all: intros H; try discriminate H; injection H as <-; try reflexivity.
  - match goal with
    | E : scan _ _ = Some _ |- _ => apply scan_keeps_grid_size in E; exact E
    end.
  - simpl. unfold store. apply length_insert.
Qed.

Lemma step_keeps_grid_size (extensions : bool) (fuel : nat) (m m' : machine) :
  step extensions fuel m = Running m' -> length (data m') = length (data m).
Proof.
  unfold step. destruct (exec extensions fuel (fetch m) m) as [m1| | |] eqn:E;
    try discriminate.
  intros H. injection H as <-. simpl.
  exact (exec_keeps_grid_size extensions fuel (fetch m) m m1 E).
Qed.

Lemma step_lands_in_grid (extensions : bool) (fuel : nat) (m m' : machine) :
  step extensions fuel m = Running m' -> in_grid (pos m').
Proof.
  unfold step. destruct (exec extensions fuel (fetch m) m) as [m1| | |];
    try discriminate.
  intros H. injection H as <-.
  pose proof cols_small. pose proof rows_small.
  split; simpl; apply wrap_axis_range; lia.
Qed.

Lemma run_invariant (extensions : bool) (fuel n : nat) : forall m m' : machine,
  run extensions fuel n m = Running m' ->
  in_grid (pos m) ->
  length (data m') = length (data m) /\ in_grid (pos m').
Proof.
  induction n as [|n IH]; intros m m' H Hg.
  - injection H as <-. split; [reflexivity|exact Hg].
  - simpl in H. destruct (step extensions fuel m) as [m1| | |] eqn:E; try discriminate.
    destruct (IH m1 m' H (step_lands_in_grid _ _ _ _ E)) as [Hlen Hin].
    split; [|exact Hin].
    rewrite Hlen. exact (step_keeps_grid_size extensions fuel m m1 E).
Qed.

(** X5: whatever the program, as long as [readfile] has stored it within
    the array, and however long it has run, the grid has its [rows * cols]
    cells, the cursor is inside the grid and the cell under the cursor is a
    cell of the array. *)
Theorem interpret_keeps_grid_and_cursor
    (bytes : list Z) (extensions : bool) (stdin : list Z) (gen : nat -> cardinal)
    (fuel n : nat) (m : machine) :
  interpret bytes extensions stdin gen fuel n = Running m ->
  length (data m) = data_size /\
  in_grid (pos m) /\
  (Z.to_nat (cell_index (fst (pos m)) (snd (pos m))) < length (data m))%nat.
Proof.
  unfold interpret. destruct (readfile bytes) as [grid|] eqn:Hload; [|discriminate].
  intros H. apply run_invariant in H.
  2:{ split; simpl; unfold cols, rows, max_col_size, max_row_size; lia. }
  destruct H as [Hlen [Hx Hy]]. simpl in Hlen.
  rewrite (readfile_size _ _ Hload) in Hlen.
  split; [exact Hlen|]. split; [split; assumption|].
  rewrite Hlen. unfold cell_index, to_size_t, data_size.
  unfold cols, rows, max_col_size, max_row_size in *.
  rewrite Z.mod_small by lia.
  change (Z.to_nat (25 * (80 + 1))) with 2025%nat. lia.
Qed.

(** ** Concrete instances *)

(** C1 as stated fails: on the machine [idle], whose stack is empty, [_]
    sets the direction to (1, 0), which is east and not west. *)
Lemma underscore_on_empty_stack_is_not_west :
  stack idle = [] /\
  exists m', exec false 0 (code "_") idle = Running m' /\
             dir m' = (1, 0) /\ dir m' <> dirs West.
Proof.
  split; [reflexivity|]. eexists. split; [reflexivity|].
  split; [reflexivity|]. simpl. discriminate.
Qed.

Lemma underscore_on_empty_stack_goes_east_witness :
  stack idle = [] /\
  exists m',
    exec false 0 (code "_") idle = Running m' /\
    dir m' = dirs East /\ dirs East = (1, 0) /\
    stack m' = [] /\ data m' = data idle /\ pos m' = pos idle.
Proof.
  split; [reflexivity|].
  apply (underscore_on_empty_stack_goes_east false 0%nat idle). reflexivity.
Defined.

(** C6 as stated fails: on the machine [idle], whose stack is empty, both
    operands are popped as 0 and neither [/] nor [%] pushes a result; the
    same holds for the least [std::int32_t] divided by -1. *)
Lemma division_by_popped_zero_pushes_nothing :
  stack idle = [] /\
  pop (stack idle) = (0, []) /\ pop [] = (0, []) /\
  div32 0 0 = None /\ rem32 0 0 = None /\
  exec false 0 (code "/") idle = Undefined /\
  exec false 0 (code "%") idle = Undefined /\
  (forall m', exec false 0 (code "/") idle <> Running m') /\
  (forall m', exec false 0 (code "%") idle <> Running m') /\
  exec false 0 (code "/") (with_stack [-1; INT32_MIN] idle) = Undefined.
Proof.
  repeat split; try reflexivity; intros m'; discriminate.
Qed.

(** After pushing 2 then 3, [-] leaves exactly -1; 7 and 2 give the
    quotient 3 and the remainder 1; 7 and 0 give nothing. *)
Lemma arithmetic_operand_order_witness :
  exec false 0 (code "-") (with_stack [3; 2] idle)
    = Running (with_stack [sub32 2 3] (with_stack [3; 2] idle)) /\
  sub32 2 3 = -1 /\
  exec false 0 (code "/") (with_stack [2; 7] idle)
    = Running (with_stack [Z.quot 7 2] (with_stack [2; 7] idle)) /\
  exec false 0 (code "%") (with_stack [2; 7] idle)
    = Running (with_stack [Z.rem 7 2] (with_stack [2; 7] idle)) /\
  exec false 0 (code "/") (with_stack [0; 7] idle) = Undefined /\
  exec false 0 (code "%") (with_stack [0; 7] idle) = Undefined.
Proof.
  pose proof (arithmetic_operand_order false 0%nat (with_stack [3; 2] idle) 3 2 [2] []
                eq_refl eq_refl) as (Hsub & Hfit & _).
  pose proof (arithmetic_operand_order false 0%nat (with_stack [2; 7] idle) 2 7 [7] []
                eq_refl eq_refl) as (_ & _ & Hdiv & _).
  pose proof (arithmetic_operand_order false 0%nat (with_stack [0; 7] idle) 0 7 [7] []
                eq_refl eq_refl) as (_ & _ & _ & Hbad).
  split; [exact Hsub|]. split; [apply Hfit; lia|].
  destruct Hdiv as [Hq Hr]; [lia|unfold INT32_MIN; lia|].
  split; [exact Hq|]. split; [exact Hr|].
  apply Hbad. left. reflexivity.
Defined.

Lemma swap_top_two_witness :
  exec false 0 (code "\") (with_stack [1; 2; 3] idle)
    = Running (with_stack [2; 1; 3] (with_stack [1; 2; 3] idle)) /\
  exec false 0 (code "\") (with_stack [7] idle)
    = Running (with_stack [0; 7] (with_stack [7] idle)) /\
  exec false 0 (code "\") idle = Running idle.
Proof.
  split; [|split].
  - apply (swap_top_two false 0%nat (with_stack [1; 2; 3] idle)). reflexivity.
  - apply (swap_top_two false 0%nat (with_stack [7] idle)). reflexivity.
  - apply (swap_top_two false 0%nat idle). reflexivity.
Defined.

(** C2 as stated fails: writing 321 at (0, 0) and reading the cell back
    pushes 65. *)
Lemma put_then_get_loses_high_bits :
  in_program 0 0 = true /\ int32 321 = 321 /\
  exists m1 m3,
    exec false 0 (code "p") (with_stack [0; 0; 321] idle) = Running m1 /\
    exec false 0 (code "g") (with_stack [0; 0] m1) = Running m3 /\
    stack m3 = [65] /\ stack m3 <> [321].
Proof.
  split; [reflexivity|]. split; [reflexivity|].
  eexists. eexists. split; [reflexivity|]. split; [reflexivity|].
  split; [vm_compute; reflexivity|]. vm_compute. discriminate.
Qed.

Lemma put_then_get_round_trip_witness :
  length (data (with_stack [3; 5; 65] idle)) = data_size /\
  exists m1,
    exec false 0 (code "p") (with_stack [3; 5; 65] idle) = Running m1 /\
    stack m1 = [] /\
    forall m2 rest2,
      data m2 = data m1 -> stack m2 = 3 :: 5 :: rest2 ->
      exec false 0 (code "g") m2 = Running (with_stack (65 :: rest2) m2).
Proof.
  split; [reflexivity|].
  apply (put_then_get_round_trip false 0%nat (with_stack [3; 5; 65] idle) 5 3 65 []).
  - reflexivity.
  - unfold max_col_size. lia.
  - unfold max_row_size. lia.
  - lia.
  - reflexivity.
Defined.

Lemma put_stores_char_of_value_witness :
  exists m1,
    exec false 0 (code "p") (with_stack [3; 5; 321] idle) = Running m1 /\
    stack m1 = [] /\
    (forall m2 rest2,
       data m2 = data m1 -> stack m2 = 3 :: 5 :: rest2 ->
       exec false 0 (code "g") m2 = Running (with_stack (to_char 321 :: rest2) m2)) /\
    to_char 321 = Z.land 321 255 - (if Z.testbit 321 7 then 256 else 0) /\
    -128 <= to_char 321 < 128 /\
    Z.land (to_char 321) 255 = Z.land 321 255 /\
    (to_char 321 = 321 <-> -128 <= 321 < 128).
Proof.
  apply (put_stores_char_of_value false 0%nat (with_stack [3; 5; 321] idle) 5 3 321 []).
  - reflexivity.
  - unfold max_col_size. lia.
  - unfold max_row_size. lia.
  - reflexivity.
Defined.

Lemma put_out_of_bounds_is_discarded_witness :
  exists m1,
    exec false 0 (code "p") (with_stack [3; 80; 65] idle) = Running m1 /\
    data m1 = data (with_stack [3; 80; 65] idle) /\ stack m1 = [] /\
    pos m1 = pos (with_stack [3; 80; 65] idle) /\
    dir m1 = dir (with_stack [3; 80; 65] idle).
Proof.
  apply (put_out_of_bounds_is_discarded false 0%nat (with_stack [3; 80; 65] idle)
           80 3 65 [80; 65] [65] []); try reflexivity.
  right. left. unfold max_col_size. lia.
Defined.

(** With [int], [std::size_t] and [std::ptrdiff_t] all of 32 bits the
    cursor would land in column 48 and row 20. *)
Lemma step_below_zero_wraps_only_under_promotion_witness :
  (wrap_axis_on 32 32 0 (-1) cols <> cols - 1 /\
   wrap_axis_on 32 32 0 (-1) rows <> rows - 1) /\
  wrap_axis_on 32 32 0 (-1) cols = 48 /\ wrap_axis_on 32 32 0 (-1) rows = 20.
Proof.
  split; [|split; reflexivity].
  apply (step_below_zero_wraps_only_under_promotion 32 32); lia.
Defined.

(** The program [<] after its first iteration. *)
Lemma interpret_keeps_grid_and_cursor_witness :
  interpret [code "<"] false [] (fun _ => South) 0 1 = Running after_turn /\
  length (data after_turn) = data_size /\
  in_grid (pos after_turn) /\
  (Z.to_nat (cell_index (fst (pos after_turn)) (snd (pos after_turn)))
   < length (data after_turn))%nat.
Proof.
  assert (H : interpret [code "<"] false [] (fun _ => South) 0 1 = Running after_turn)
    by (vm_compute; reflexivity).
  split; [exact H|].
  exact (interpret_keeps_grid_and_cursor _ _ _ _ _ _ _ H).
Defined.

(** From column 60 the 81 moves west end in column 31, from row 20 the 25
    moves north in row 11. *)
Lemma west_and_north_trips_never_close_witness :
  in_grid (60, 20) /\
  fst (pos (advance (Z.to_nat cols) (with_dir (dirs West) (with_pos (60, 20) idle)))) <> 60 /\
  snd (pos (advance (Z.to_nat rows) (with_dir (dirs North) (with_pos (60, 20) idle)))) <> 20 /\
  pos (advance (Z.to_nat cols) (with_dir (dirs West) (with_pos (60, 20) idle))) = (31, 20) /\
  pos (advance (Z.to_nat rows) (with_dir (dirs North) (with_pos (60, 20) idle))) = (60, 11).
Proof.
  assert (Hg : in_grid (60, 20))
    by (split; simpl; unfold cols, rows, max_col_size, max_row_size; lia).
  split; [exact Hg|]. split; [|split].
  - apply (west_and_north_trips_never_close
             (with_dir (dirs West) (with_pos (60, 20) idle)) Hg). reflexivity.
  - apply (west_and_north_trips_never_close
             (with_dir (dirs North) (with_pos (60, 20) idle)) Hg). reflexivity.
  - split; vm_compute; reflexivity.
Defined.

Lemma east_and_south_round_trip_witness :
  in_grid (pos idle) /\
  pos (advance (Z.to_nat cols) idle) = pos idle /\
  pos (advance (Z.to_nat rows) (with_dir (dirs South) idle)) = pos idle.
Proof.
  assert (Hg : in_grid (pos idle))
    by (split; simpl; unfold cols, rows, max_col_size, max_row_size; lia).
  split; [exact Hg|]. split.
  - apply (east_and_south_round_trip idle Hg). reflexivity.
  - apply (east_and_south_round_trip (with_dir (dirs South) idle) Hg). reflexivity.
Defined.

(** The one-character program made of a double quote: the loop walks once
    round the first row and stops on the quote it started from. *)
Lemma string_closes_east_and_south_witness :
  exists m',
    exec false 81 (code quote_char) (initial (loaded [code quote_char]) [] (fun _ => South))
      = Running m' /\
    fetch m' = code quote_char /\
    data m' = loaded [code quote_char] /\
    dir m' = dirs East.
Proof.
  apply (string_closes_east_and_south false 81%nat
           (initial (loaded [code quote_char]) [] (fun _ => South))).
  - split; simpl; unfold cols, rows, max_col_size, max_row_size; lia.
  - reflexivity.
  - left. reflexivity.
  - vm_compute. lia.
Defined.

(** * The rest of the program *)

(** ** The loader *)

Lemma to_size_t_small (z : Z) : 0 <= z < 2 ^ 64 -> to_size_t z = z.
Proof. intros H. unfold to_size_t. apply Z.mod_small. exact H. Qed.

Lemma to_size_t_range (z : Z) : 0 <= to_size_t z < 2 ^ 64.
Proof. unfold to_size_t. apply Z.mod_pos_bound. lia. Qed.

(** The index after a continuation byte: [--j] and [++j] cancel. *)
Lemma index_after_continuation (j : Z) :
  0 <= j < 2 ^ 64 -> to_size_t (to_size_t (j - 1) + 1) = j.
Proof.
  intros H. unfold to_size_t. rewrite Zplus_mod_idemp_l.
  replace (j - 1 + 1) with j by lia. apply Z.mod_small. exact H.
Qed.

(** The index after a newline: the start of the next row. *)
Lemma index_after_newline (j ncols : Z) :
  0 <= j + cols - ncols < 2 ^ 64 ->
  to_size_t (to_size_t (j + to_size_t (cols - ncols - 1)) + 1) = j + cols - ncols.
Proof.
  intros H. unfold to_size_t.
  rewrite Zplus_mod_idemp_l.
  replace (j + (cols - ncols - 1) mod 2 ^ 64 + 1)
    with ((cols - ncols - 1) mod 2 ^ 64 + (j + 1)) by lia.
  rewrite Zplus_mod_idemp_l.
  replace (cols - ncols - 1 + (j + 1)) with (j + cols - ncols) by lia.
  apply Z.mod_small. exact H.
Qed.

Lemma copy_bytes_skips_continuation (bytes : list Z) : forall (j ncols : Z) (result : list Z),
  0 <= j < 2 ^ 64 ->
  copy_bytes bytes j ncols result
  = copy_bytes (filter (fun b => negb (continuation_byte b)) bytes) j ncols result.
Proof.
  induction bytes as [|byte later IH]; intros j ncols result Hj; [reflexivity|].
  destruct (continuation_byte byte) eqn:E.
  - rewrite filter_cons_False by (rewrite E; simpl; intros []).
    cbn [copy_bytes]. unfold continuation_byte in E. rewrite E.
    rewrite index_after_continuation by exact Hj. apply IH. exact Hj.
  - rewrite filter_cons_True by (rewrite E; exact I).
    cbn [copy_bytes]. unfold continuation_byte in E. rewrite E.
    destruct (to_char byte =? 10); [apply IH; apply to_size_t_range|].
    destruct (j <? Z.of_nat data_size); [apply IH; apply to_size_t_range|reflexivity].
Qed.

(** X8: [readfile] looks at the first 2000 bytes of the file only, and
    among them the continuation bytes (10xxxxxx) leave no trace: the grid is
    the one of the file cut at 2000 bytes with these bytes removed, and the
    one file is stored within the array exactly when the other is. *)
Theorem readfile_reads_2000_bytes_and_skips_continuations (bytes : list Z) :
  readfile bytes
  = readfile (filter (fun b => negb (continuation_byte b)) (take read_limit bytes)).
Proof.
  unfold readfile.
  rewrite (take_ge (filter _ _)).
  2:{ etransitivity; [apply length_filter|]. rewrite length_take. lia. }
  apply copy_bytes_skips_continuation. lia.
Qed.

Lemma plain_byte_tests (byte : Z) :
  plain_byte byte = true ->
  (Z.land (byte mod 256) 192 =? 128) = false /\ (to_char byte =? 10) = false.
Proof.
  unfold plain_byte, continuation_byte. intros H.
  apply andb_true_iff in H as [H1 H2].
  apply negb_true_iff in H1, H2. split; assumption.
Qed.

Lemma data_size_value : data_size = 2025%nat.
Proof. reflexivity. Qed.

Lemma read_limit_value : read_limit = 2000%nat.
Proof. reflexivity. Qed.

(** A run of plain bytes that fits the array is stored cell after cell. *)
Lemma copy_bytes_plain (l : list Z) : forall (rest : list Z) (j : nat) (ncols : Z) (result : list Z),
  Forall (fun b => plain_byte b = true) l ->
  (j + length l <= data_size)%nat ->
  copy_bytes (l ++ rest) (Z.of_nat j) ncols result
  = copy_bytes rest (Z.of_nat (j + length l)) (ncols + Z.of_nat (length l)) (blit l j result).
Proof.
  induction l as [|byte later IH]; intros rest j ncols result Hl Hj.
  - simpl. rewrite Nat.add_0_r, Z.add_0_r. reflexivity.
  - apply Forall_cons in Hl as [Hb Hl].
    destruct (plain_byte_tests byte Hb) as [E1 E2].
    cbn [length] in *. cbn [app copy_bytes]. rewrite E1, E2.
    pose proof data_size_value as Hsize.
    destruct (Z.ltb_spec (Z.of_nat j) (Z.of_nat data_size)) as [_|Hge]; [|lia].
    rewrite to_size_t_small by lia.
    replace (Z.of_nat j + 1) with (Z.of_nat (S j)) by lia.
    rewrite Nat2Z.id. rewrite IH by (try assumption; lia).
    simpl blit. f_equal; [f_equal|]; lia.
Qed.

Lemma copy_bytes_newline (rest : list Z) (j ncols : Z) (result : list Z) :
  0 <= j + cols - ncols < 2 ^ 64 ->
  copy_bytes (10 :: rest) j ncols result = copy_bytes rest (j + cols - ncols) 0 result.
Proof.
  intros H. cbn [copy_bytes].
  change (Z.land (10 mod 256) 192 =? 128) with false.
  change (to_char 10 =? 10) with true. cbv iota.
  rewrite index_after_newline by exact H. reflexivity.
Qed.

Lemma row_start_spec (y : nat) : Z.of_nat (row_start y) = 81 * Z.of_nat y.
Proof. unfold row_start, cols, max_col_size. lia. Qed.

#[local] Arguments row_start : simpl never.

(** Lines of at most [cols] plain bytes fill one row each. *)
Lemma copy_bytes_lines (lines : list (list Z)) : forall (rest : list Z) (y : nat) (result : list Z),
  Forall (Forall (fun b => plain_byte b = true)) lines ->
  Forall (fun l => (length l <= 81)%nat) lines ->
  (y + length lines <= 25)%nat ->
  copy_bytes (concat (map (fun l => l ++ [10]) lines) ++ rest)
             (Z.of_nat (row_start y)) 0 result
  = copy_bytes rest (Z.of_nat (row_start (y + length lines))) 0
               (blit_lines lines y result).
Proof.
  induction lines as [|l later IH]; intros rest y result Hp Hw Hy.
  - cbn [map concat blit_lines length app]. rewrite Nat.add_0_r. reflexivity.
  - apply Forall_cons in Hp as [Hl Hp]. apply Forall_cons in Hw as [Hwl Hw].
    cbn [length] in Hy. cbn [map concat blit_lines length].
    pose proof (row_start_spec y) as Hy0. pose proof (row_start_spec (S y)) as Hy1.
    pose proof data_size_value as Hsize.
    rewrite <- !app_assoc. rewrite copy_bytes_plain by (try assumption; lia).
    cbn [app]. rewrite copy_bytes_newline by (unfold cols, max_col_size; lia).
    replace (Z.of_nat (row_start y + length l) + cols - (0 + Z.of_nat (length l)))
      with (Z.of_nat (row_start (S y))) by (unfold cols, max_col_size; lia).
    rewrite IH by (try assumption; lia).
    replace (S y + length later)%nat with (y + S (length later))%nat by lia.
    reflexivity.
Qed.

Lemma length_blit (l : list Z) : forall (j : nat) (r : list Z),
  length (blit l j r) = length r.
Proof.
  induction l as [|b l IH]; intros j r; [reflexivity|].
  simpl. rewrite IH. apply length_insert.
Qed.

Lemma blit_lookup_before (l : list Z) : forall (j i : nat) (r : list Z),
  (i < j)%nat -> blit l j r !! i = r !! i.
Proof.
  induction l as [|b l IH]; intros j i r H; [reflexivity|].
  simpl. rewrite IH by lia. apply list_lookup_insert_ne. lia.
Qed.

Lemma blit_lookup_after (l : list Z) : forall (j i : nat) (r : list Z),
  (j + length l <= i)%nat -> blit l j r !! i = r !! i.
Proof.
  induction l as [|b l IH]; intros j i r H; [reflexivity|].
  simpl in *. rewrite IH by lia. apply list_lookup_insert_ne. lia.
Qed.

Lemma blit_lookup_inside (l : list Z) : forall (j i : nat) (r : list Z),
  (j <= i < j + length l)%nat -> (i < length r)%nat ->
  blit l j r !! i = to_char <$> l !! (i - j)%nat.
Proof.
  induction l as [|b l IH]; intros j i r H Hr; [simpl in H; lia|].
  simpl in *. destruct (decide (i = j)) as [->|Hne].
  - rewrite blit_lookup_before by lia.
    rewrite list_lookup_insert_eq by exact Hr.
    rewrite Nat.sub_diag. reflexivity.
  - rewrite IH by (rewrite ?length_insert; lia).
    replace (i - j)%nat with (S (i - S j)) by lia. reflexivity.
Qed.

Lemma length_blit_lines (lines : list (list Z)) : forall (y : nat) (r : list Z),
  length (blit_lines lines y r) = length r.
Proof.
  induction lines as [|l lines IH]; intros y r; [reflexivity|].
  cbn [blit_lines]. rewrite IH. apply length_blit.
Qed.

Lemma blit_lines_lookup_before (lines : list (list Z)) : forall (y i : nat) (r : list Z),
  (i < row_start y)%nat -> blit_lines lines y r !! i = r !! i.
Proof.
  induction lines as [|l lines IH]; intros y i r H; [reflexivity|].
  cbn [blit_lines].
  pose proof (row_start_spec y). pose proof (row_start_spec (S y)).
  rewrite IH by lia. apply blit_lookup_before. exact H.
Qed.

(** The cell in column [x] of row [y] after the lines have been stored. *)
Lemma blit_lines_lookup (lines : list (list Z)) : forall (y0 y x : nat) (r : list Z),
  Forall (fun l => (length l <= 81)%nat) lines ->
  (y0 <= y)%nat -> (x < 81)%nat ->
  (row_start y + x < length r)%nat ->
  blit_lines lines y0 r !! (row_start y + x)%nat
  = match lines !! (y - y0)%nat with
    | Some l =>
        match l !! x with
        | Some b => Some (to_char b)
        | None => r !! (row_start y + x)%nat
        end
    | None => r !! (row_start y + x)%nat
    end.
Proof.
  induction lines as [|l lines IH]; intros y0 y x r Hw Hy Hx Hr; [reflexivity|].
  apply Forall_cons in Hw as [Hwl Hw]. cbn [blit_lines].
  pose proof (row_start_spec y0) as H0. pose proof (row_start_spec (S y0)) as H1.
  pose proof (row_start_spec y) as H2.
  destruct (decide (y = y0)) as [->|Hne].
  - rewrite Nat.sub_diag. cbn [lookup list_lookup].
    rewrite blit_lines_lookup_before by lia.
    destruct (l !! x) as [b|] eqn:E.
    + rewrite blit_lookup_inside by (apply lookup_lt_Some in E; lia).
      replace (row_start y0 + x - row_start y0)%nat with x by lia.
      rewrite E. reflexivity.
    + apply lookup_ge_None in E. apply blit_lookup_after. lia.
  - rewrite IH by (rewrite ?length_blit; try assumption; lia).
    replace (y - y0)%nat with (S (y - S y0)) by lia. cbn [lookup list_lookup].
    rewrite blit_lookup_after by lia. reflexivity.
Qed.

Lemma cell_index_in_grid (x y : Z) :
  0 <= x < cols -> 0 <= y < rows ->
  Z.to_nat (cell_index x y) = (row_start (Z.to_nat y) + Z.to_nat x)%nat /\
  (Z.to_nat (cell_index x y) < data_size)%nat.
Proof.
  unfold cell_index, to_size_t, row_start, data_size, cols, rows,
    max_col_size, max_row_size.
  intros Hx Hy. rewrite Z.mod_small by lia. split; lia.
Qed.

(** X7: a file of at most 2000 bytes made of lines of at most 81 stored
    bytes (no newline inside, no continuation byte), at most 25 of them, the
    last one with or without its newline, is stored within the array, and
    the cell in column [x] of row [y] holds byte [x] of line [y] as a
    [char], and 0 where the line has ended or there is no such line. *)
Theorem readfile_lays_out_rows (lines : list (list Z)) (last : list Z) (x y : Z) :
  Forall (Forall (fun b => plain_byte b = true)) (lines ++ [last]) ->
  Forall (fun l => (length l <= 81)%nat) (lines ++ [last]) ->
  (length lines < 25)%nat \/ ((length lines = 25)%nat /\ last = []) ->
  (length (text_of lines last) <= read_limit)%nat ->
  0 <= x < cols -> 0 <= y < rows ->
  exists grid,
    readfile (text_of lines last) = Some grid /\
    at_index grid (cell_index x y)
    = match (lines ++ [last]) !! Z.to_nat y with
      | Some l => match l !! Z.to_nat x with Some b => to_char b | None => 0 end
      | None => 0
      end.
Proof.
  intros Hp Hw Hrows Hlen Hx Hy.
  apply Forall_app in Hp as [Hpl Hplast]. apply Forall_app in Hw as [Hwl Hwlast].
  rewrite Forall_singleton in Hplast, Hwlast.
  assert (Hn : (length lines <= 25)%nat) by (destruct Hrows as [?|[? _]]; lia).
  pose proof data_size_value as Hsz.
  pose proof (row_start_spec (length lines)) as Hrs.
  exists (blit last (row_start (length lines)) (blit_lines lines 0 (replicate data_size 0))).
  split.
  { unfold readfile. rewrite take_ge by exact Hlen. unfold text_of.
    pose proof (copy_bytes_lines lines last 0 (replicate data_size 0) Hpl Hwl) as Hc.
    change (Z.of_nat (row_start 0)) with 0 in Hc. rewrite Hc by lia. clear Hc.
    cbn [Nat.add].
    pose proof (copy_bytes_plain last [] (row_start (length lines)) 0
                  (blit_lines lines 0 (replicate data_size 0)) Hplast) as Hc.
    rewrite app_nil_r in Hc. rewrite Hc. { reflexivity. }
    destruct Hrows as [Hlt|[Heq ->]]; cbn [length]; lia. }
  destruct (cell_index_in_grid x y Hx Hy) as [Hi Hsize].
  unfold at_index. rewrite Hi.
  set (X := Z.to_nat x) in *. set (Y := Z.to_nat y) in *.
  assert (HX : (X < 81)%nat) by (unfold cols, max_col_size in Hx; lia).
  pose proof (row_start_spec Y) as HrY.
  assert (Hzero : replicate data_size 0 !! (row_start Y + X)%nat = Some 0).
  { apply lookup_replicate. split; [reflexivity|]. rewrite <- Hi. exact Hsize. }
  destruct (Nat.lt_trichotomy Y (length lines)) as [Hlt|[Heq|Hgt]].
  - rewrite blit_lookup_before by lia.
    rewrite blit_lines_lookup
      by (rewrite ?length_replicate; try assumption; try lia; rewrite <- Hi; exact Hsize).
    rewrite Nat.sub_0_r, lookup_app_l by exact Hlt.
    destruct (lines !! Y) as [l|]; [|rewrite Hzero; reflexivity].
    destruct (l !! X); [reflexivity|rewrite Hzero; reflexivity].
  - rewrite Heq, list_lookup_middle by reflexivity.
    destruct (last !! X) as [b|] eqn:E.
    + rewrite blit_lookup_inside.
      * replace (row_start (length lines) + X - row_start (length lines))%nat
          with X by lia.
        rewrite E. reflexivity.
      * apply lookup_lt_Some in E. lia.
      * rewrite length_blit_lines, length_replicate, <- Heq, <- Hi. exact Hsize.
    + apply lookup_ge_None in E. rewrite blit_lookup_after by lia.
      rewrite <- Heq.
      rewrite blit_lines_lookup
        by (rewrite ?length_replicate; try assumption; try lia; rewrite <- Hi; exact Hsize).
      rewrite Nat.sub_0_r, Heq, (lookup_ge_None_2 lines) by lia.
      rewrite <- Heq, Hzero. reflexivity.
  - rewrite (lookup_ge_None_2 (lines ++ [last])) by (rewrite length_app; simpl; lia).
    rewrite blit_lookup_after by lia.
    rewrite blit_lines_lookup
      by (rewrite ?length_replicate; try assumption; try lia; rewrite <- Hi; exact Hsize).
    rewrite Nat.sub_0_r, (lookup_ge_None_2 lines) by lia.
    rewrite Hzero. reflexivity.
Qed.

(** X18: the flag [extensions] matters for seven characters only, [a] to
    [f] and the apostrophe: with the flag off these do nothing, and every
    other character is executed the same whether the flag is on or off. *)
Theorem extensions_gate_seven_characters (fuel : nat) (ins : Z) (m : machine) :
  (gated (as_ascii ins) = false ->
   exec true fuel ins m = exec false fuel ins m) /\
  (gated (as_ascii ins) = true -> exec false fuel ins m = Running m).
Proof.
  unfold exec, gated.
  destruct (as_ascii ins) as [[] [] [] [] [] [] [] []];
    split; intros H; first [reflexivity | discriminate H].
Qed.

(** X9: a file without newline (and without continuation byte) of at most
    2000 bytes is stored within the array, byte [i] in column [i mod cols]
    of row [i / cols]: a line longer than a row runs on into the next
    rows. *)
Theorem readfile_wraps_a_long_line (line : list Z) (i : nat) (b : Z) :
  Forall (fun c => plain_byte c = true) line ->
  (length line <= read_limit)%nat ->
  line !! i = Some b ->
  exists grid,
    readfile line = Some grid /\
    at_index grid (cell_index (Z.of_nat i mod cols) (Z.of_nat i / cols)) = to_char b.
Proof.
  intros Hp Hlen Hb.
  pose proof (lookup_lt_Some _ _ _ Hb) as Hi.
  pose proof data_size_value as Hsz.
  unfold read_limit, max_row_size, max_col_size in Hlen.
  exists (blit line 0 (replicate data_size 0)). split.
  { unfold readfile.
    rewrite take_ge by (unfold read_limit, max_row_size, max_col_size; exact Hlen).
    pose proof (copy_bytes_plain line [] 0 0 (replicate data_size 0) Hp) as Hc.
    rewrite app_nil_r in Hc. change (Z.of_nat 0) with 0 in Hc.
    rewrite Hc by lia. reflexivity. }
  assert (Hidx : Z.to_nat (cell_index (Z.of_nat i mod cols) (Z.of_nat i / cols)) = i).
  { unfold cell_index, to_size_t.
    rewrite (Z.mul_comm _ cols), <- Z.div_mod by (unfold cols, max_col_size; lia).
    rewrite Z.mod_small by lia. apply Nat2Z.id. }
  unfold at_index. rewrite Hidx.
  rewrite blit_lookup_inside.
  - rewrite Nat.sub_0_r, Hb. reflexivity.
  - lia.
  - rewrite length_replicate. lia.
Qed.

(** X23: in a file of at most 2000 bytes whose first 25 lines hold at
    most 81 stored bytes each, a character on the 26th line is stored past
    the end of the array: [readfile] has no defined result, and neither has
    the call of [interpret]. *)
Theorem readfile_overruns_on_a_26th_line
    (lines : list (list Z)) (b : Z) (last : list Z)
    (extensions : bool) (stdin : list Z) (gen : nat -> cardinal) (fuel n : nat) :
  Forall (Forall (fun c => plain_byte c = true)) lines ->
  Forall (fun l => (length l <= 81)%nat) lines ->
  length lines = 25%nat ->
  plain_byte b = true ->
  (length (text_of lines (b :: last)) <= read_limit)%nat ->
  readfile (text_of lines (b :: last)) = None /\
  interpret (text_of lines (b :: last)) extensions stdin gen fuel n = Undefined.
Proof.
  intros Hp Hw Hn Hb Hlen.
  assert (Hload : readfile (text_of lines (b :: last)) = None).
  { unfold readfile. rewrite take_ge by exact Hlen. unfold text_of.
    pose proof (copy_bytes_lines lines (b :: last) 0 (replicate data_size 0) Hp Hw) as Hc.
    change (Z.of_nat (row_start 0)) with 0 in Hc. rewrite Hc by lia. clear Hc.
    cbn [Nat.add]. rewrite Hn.
    destruct (plain_byte_tests b Hb) as [E1 E2].
    cbn [copy_bytes]. rewrite E1, E2. reflexivity. }
  split; [exact Hload|]. unfold interpret. rewrite Hload. reflexivity.
Qed.

(** ** What touches the grid *)

Lemma scan_keeps_data (fuel : nat) : forall m m' : machine,
  scan fuel m = Some m' -> data m' = data m /\ dir m' = dir m.
Proof.
  induction fuel as [|fuel IH]; intros m m' H; [discriminate|].
  simpl in H. destruct (fetch m =? code quote_char).
  - injection H as <-. split; reflexivity.
  - apply IH in H. exact H.
Qed.

Lemma exec_grid_frame (extensions : bool) (fuel : nat) (ins : Z) (m m' : machine) :
  exec extensions fuel ins m = Running m' ->
  data m' = data m \/
  (as_ascii ins = "p"%char /\
   exists x y v, in_program x y = true /\
                 data m' = store (data m) (cell_index x y) v).
Proof.
  unfold exec.
  destruct (as_ascii ins) as [[] [] [] [] [] [] [] []];
    repeat match goal with
           | |- context [pop ?s] => destruct (pop s)
           end;
    try (intros H; injection H as <-; left; reflexivity);
    try discriminate.
  all: repeat match goal with
              | |- context [match ?x with _ => _ end] => destruct x eqn:?
              end.
  all: intros H; try discriminate H; injection H as <-; try (left; reflexivity).
  - left. match goal with
          | E : scan _ _ = Some _ |- _ => apply scan_keeps_data in E; apply E
          end.
  - right. split; [reflexivity|]. eauto.
Qed.

(** X10: an iteration of the dispatch loop leaves the grid as it is, unless
    the character under the cursor is [p]; then the new grid is the old one
    with one cell of the program area (column below 80, row below 25) set to
    a [char]. *)
Theorem only_put_changes_the_grid (extensions : bool) (fuel : nat) (m m' : machine) :
  step extensions fuel m = Running m' ->
  data m' = data m \/
  (as_ascii (fetch m) = "p"%char /\
   exists x y v,
     0 <= x < max_col_size /\ 0 <= y < max_row_size /\
     data m' = <[Z.to_nat (y * cols + x) := to_char v]> (data m)).
Proof.
  unfold step.
  destruct (exec extensions fuel (fetch m) m) as [m1| | |] eqn:E; try discriminate.
  intros H. injection H as <-. simpl.
  destruct (exec_grid_frame _ _ _ _ _ E) as [H|[Hp (x & y & v & Hin & Hd)]];
    [left; exact H|right].
  split; [exact Hp|]. exists x, y, v.
  unfold in_program in Hin.
  rewrite !andb_true_iff, !Z.leb_le, !Z.ltb_lt in Hin.
  split; [lia|]. split; [lia|].
  rewrite Hd. unfold store.
  destruct (cell_index_in_program x y) as [-> _]; [lia|lia|reflexivity].
Qed.

Lemma step_keeps_padding (extensions : bool) (fuel : nat) (m m' : machine) (y : Z) :
  step extensions fuel m = Running m' ->
  0 <= y < rows ->
  at_index (data m') (cell_index max_col_size y)
  = at_index (data m) (cell_index max_col_size y).
Proof.
  unfold step.
  destruct (exec extensions fuel (fetch m) m) as [m1| | |] eqn:E; try discriminate.
  intros H Hy. injection H as <-. simpl.
  destruct (exec_grid_frame _ _ _ _ _ E) as [->|[_ (x & y' & v & Hin & ->)]];
    [reflexivity|].
  unfold in_program in Hin.
  rewrite !andb_true_iff, !Z.leb_le, !Z.ltb_lt in Hin.
  unfold at_index, store. rewrite list_lookup_insert_ne; [reflexivity|].
  unfold cell_index, to_size_t, cols, rows, max_col_size, max_row_size in *.
  rewrite !Z.mod_small by lia. lia.
Qed.

Lemma run_keeps_padding (extensions : bool) (fuel n : nat) : forall (m m' : machine) (y : Z),
  run extensions fuel n m = Running m' ->
  0 <= y < rows ->
  at_index (data m') (cell_index max_col_size y)
  = at_index (data m) (cell_index max_col_size y).
Proof.
  induction n as [|n IH]; intros m m' y H Hy.
  - injection H as <-. reflexivity.
  - simpl in H. destruct (step extensions fuel m) as [m1| | |] eqn:E; try discriminate.
    rewrite (IH m1 m' y H Hy). exact (step_keeps_padding _ _ _ _ _ E Hy).
Qed.

(** X11: however long a program runs that [readfile] has stored within
    the array, the cells of column 80, the column beyond the program area,
    hold what [readfile] put there. *)
Theorem padding_column_is_never_written
    (bytes grid : list Z) (extensions : bool) (stdin : list Z) (gen : nat -> cardinal)
    (fuel n : nat) (m : machine) (y : Z) :
  readfile bytes = Some grid ->
  interpret bytes extensions stdin gen fuel n = Running m ->
  0 <= y < rows ->
  at_index (data m) (cell_index max_col_size y)
  = at_index grid (cell_index max_col_size y).
Proof.
  intros Hload. rewrite (interpret_unfold _ _ _ _ _ _ _ Hload). intros H Hy.
  exact (run_keeps_padding _ _ _ _ _ _ H Hy).
Qed.

(** ** [g] and [p] on different cells *)

Lemma cell_index_injective (x1 y1 x2 y2 : Z) :
  0 <= x1 < max_col_size -> 0 <= y1 < max_row_size ->
  0 <= x2 < max_col_size -> 0 <= y2 < max_row_size ->
  Z.to_nat (cell_index x1 y1) = Z.to_nat (cell_index x2 y2) -> x1 = x2 /\ y1 = y2.
Proof.
  unfold cell_index, to_size_t, cols, max_col_size, max_row_size.
  intros H1 H2 H3 H4. rewrite !Z.mod_small by lia. lia.
Qed.

Lemma in_program_spec (x y : Z) :
  in_program x y = true <-> 0 <= x < max_col_size /\ 0 <= y < max_row_size.
Proof.
  unfold in_program. rewrite !andb_true_iff, !Z.leb_le, !Z.ltb_lt. lia.
Qed.

Section OtherCell.

Variable extensions : bool.
Variable fuel : nat.

(** X12: [p] at [(x1, y1)], in bounds or not, followed by [g] at another,
    in-bounds cell [(x2, y2)] pushes the value that cell had before the
    [p]. *)
Theorem put_then_get_elsewhere (m : machine) (x1 y1 x2 y2 v : Z) (rest : list Z) :
  0 <= x2 < max_col_size -> 0 <= y2 < max_row_size ->
  (x1, y1) <> (x2, y2) ->
  stack m = y1 :: x1 :: v :: rest ->
  exists m1,
    exec extensions fuel (code "p") m = Running m1 /\
    stack m1 = rest /\
    forall m2 rest2,
      data m2 = data m1 -> stack m2 = y2 :: x2 :: rest2 ->
      exec extensions fuel (code "g") m2
      = Running (with_stack (at_index (data m) (cell_index x2 y2) :: rest2) m2).
Proof.
  intros Hx2 Hy2 Hne Hs.
  assert (Hg : forall d m2 rest2,
             at_index d (cell_index x2 y2) = at_index (data m) (cell_index x2 y2) ->
             data m2 = d -> stack m2 = y2 :: x2 :: rest2 ->
             exec extensions fuel (code "g") m2
             = Running (with_stack (at_index (data m) (cell_index x2 y2) :: rest2) m2)).
  { intros d m2 rest2 Hd Hm2 Hs2.
    unfold exec. change (as_ascii (code "g")) with "g"%char. cbv iota.
    rewrite Hs2. simpl. rewrite in_program_true by assumption.
    rewrite Hm2, Hd. reflexivity. }
  unfold exec at 1. change (as_ascii (code "p")) with "p"%char. cbv iota.
  rewrite Hs. simpl.
  destruct (in_program x1 y1) eqn:Hin.
  - eexists. split; [reflexivity|]. split; [reflexivity|].
    intros m2 rest2 Hd Hs2. eapply Hg; [|exact Hd|exact Hs2].
    simpl. unfold at_index, store. rewrite list_lookup_insert_ne; [reflexivity|].
    apply in_program_spec in Hin as [Hx1 Hy1].
    intros E. apply cell_index_injective in E as [-> ->]; try assumption.
    apply Hne. reflexivity.
  - eexists. split; [reflexivity|]. split; [reflexivity|].
    intros m2 rest2 Hd Hs2. eapply Hg; [|exact Hd|exact Hs2]. reflexivity.
Qed.

(** X13: when [x] or [y] lies outside the program area, [g] pops its two
    operands and pushes 0; nothing else changes. *)
Theorem get_out_of_bounds_pushes_zero (m : machine) (x y : Z) (s1 s2 : list Z) :
  pop (stack m) = (y, s1) -> pop s1 = (x, s2) ->
  x < 0 \/ x >= max_col_size \/ y < 0 \/ y >= max_row_size ->
  exec extensions fuel (code "g") m = Running (with_stack (0 :: s2) m).
Proof.
  intros Hy Hx Hout.
  unfold exec. change (as_ascii (code "g")) with "g"%char. cbv iota.
  rewrite Hy, Hx, (in_program_false x y Hout). reflexivity.
Qed.

End OtherCell.

(** ** Zeros at the bottom of the stack *)

Lemma strip_zeros_snoc (s : list Z) : strip_zeros (s ++ [0]) = strip_zeros s.
Proof.
  induction s as [|v s IH]; [reflexivity|].
  simpl. rewrite IH. reflexivity.
Qed.

Lemma strip_zeros_cons (v : Z) (t' t : list Z) :
  strip_zeros t' = strip_zeros t -> strip_zeros (v :: t') = strip_zeros (v :: t).
Proof. intros H. simpl. rewrite H. reflexivity. Qed.

Lemma strip_zeros_padding (s : list Z) :
  exists k, s = strip_zeros s ++ replicate k 0.
Proof.
  induction s as [|v s [k IH]]; [exists 0%nat; reflexivity|].
  simpl. destruct (strip_zeros s) as [|w r] eqn:E.
  - simpl in IH. destruct (Z.eqb_spec v 0) as [->|Hne].
    + exists (S k). rewrite IH. reflexivity.
    + exists k. rewrite IH. reflexivity.
  - exists k. rewrite IH at 1. reflexivity.
Qed.

#[local] Arguments strip_zeros : simpl never.

Lemma same_but_stack_refl (m : machine) : same_but_stack m m.
Proof. repeat split. Qed.

Lemma alike_trans (o1 o2 o3 : outcome) : alike o1 o2 -> alike o2 o3 -> alike o1 o3.
Proof.
  destruct o1 as [a|a| |], o2 as [b|b| |], o3 as [c|c| |]; simpl; try tauto.
  - intros [(A1 & A2 & A3 & A4 & A5 & A6 & A7) As] [(B1 & B2 & B3 & B4 & B5 & B6 & B7) Bs].
    split; [repeat split; congruence|congruence].
  - intros [(A1 & A2 & A3 & A4 & A5 & A6 & A7) As] [(B1 & B2 & B3 & B4 & B5 & B6 & B7) Bs].
    split; [repeat split; congruence|congruence].
Qed.

Lemma alike_sym (o1 o2 : outcome) : alike o1 o2 -> alike o2 o1.
Proof.
  destruct o1 as [a|a| |], o2 as [b|b| |]; simpl; try tauto.
  - intros [(A1 & A2 & A3 & A4 & A5 & A6 & A7) As].
    split; [repeat split; congruence|congruence].
  - intros [(A1 & A2 & A3 & A4 & A5 & A6 & A7) As].
    split; [repeat split; congruence|congruence].
Qed.

(** The string loop does not look below the values it pushes. *)
Lemma scan_on_padded_stack (z : list Z) (fuel : nat) : forall (m : machine) (s : list Z),
  scan fuel (with_stack (s ++ z) m)
  = option_map (fun r => with_stack (stack r ++ z) r) (scan fuel (with_stack s m)).
Proof.
  induction fuel as [|fuel IH]; intros m s; [reflexivity|].
  simpl scan. change (fetch (with_stack (s ++ z) m)) with (fetch m).
  change (fetch (with_stack s m)) with (fetch m).
  destruct (fetch m =? code quote_char); [reflexivity|].
  exact (IH (move m) (fetch m :: s)).
Qed.

Lemma scan_move_on_padded_stack (z : list Z) (fuel : nat) (m : machine) (s : list Z) :
  scan fuel (move (with_stack (s ++ z) m))
  = option_map (fun r => with_stack (stack r ++ z) r) (scan fuel (move (with_stack s m))).
Proof. exact (scan_on_padded_stack z fuel (move m) s). Qed.

Ltac alike_stack :=
  cbn; repeat apply strip_zeros_cons; first [reflexivity | apply strip_zeros_snoc].

Ltac alike_case :=
  repeat match goal with
         | |- context [match ?x with _ => _ end] => destruct x eqn:?
         end;
  first [exact I | split; [repeat split; reflexivity | alike_stack]].

Lemma exec_with_one_more_zero (extensions : bool) (fuel : nat) (ins : Z)
    (m : machine) (s : list Z) :
  alike (exec extensions fuel ins (with_stack (s ++ [0]) m))
        (exec extensions fuel ins (with_stack s m)).
Proof.
  unfold exec.
  destruct (as_ascii ins) as [[] [] [] [] [] [] [] []];
    try rewrite scan_move_on_padded_stack;
    try (destruct s as [|a [|b [|c r]]]; cbn; alike_case).
  destruct (scan fuel (move (with_stack s m))) as [r|]; cbn; [|exact I].
  split; [repeat split; reflexivity|apply strip_zeros_snoc].
Qed.

Lemma exec_with_more_zeros (extensions : bool) (fuel : nat) (ins : Z)
    (m : machine) (s : list Z) (k : nat) :
  alike (exec extensions fuel ins (with_stack (s ++ replicate k 0) m))
        (exec extensions fuel ins (with_stack s m)).
Proof.
  induction k as [|k IH].
  - simpl. rewrite app_nil_r.
    destruct (exec extensions fuel ins (with_stack s m)); simpl;
      try exact I; split; try reflexivity; apply same_but_stack_refl.
  - rewrite replicate_S_end, app_assoc.
    eapply alike_trans; [apply exec_with_one_more_zero|exact IH].
Qed.

Lemma exec_blind_to_bottom_zeros (extensions : bool) (fuel : nat) (ins : Z)
    (m1 m2 : machine) :
  same_but_stack m1 m2 ->
  strip_zeros (stack m1) = strip_zeros (stack m2) ->
  alike (exec extensions fuel ins m1) (exec extensions fuel ins m2).
Proof.
  intros (A1 & A2 & A3 & A4 & A5 & A6 & A7) Hs.
  destruct m1 as [d1 s1 p1 v1 o1 i1 g1 n1], m2 as [d2 s2 p2 v2 o2 i2 g2 n2].
  simpl in *. subst.
  destruct (strip_zeros_padding s1) as [k1 H1], (strip_zeros_padding s2) as [k2 H2].
  rewrite Hs in H1.
  set (t := strip_zeros s2) in *.
  set (m := Machine d2 t p2 v2 o2 i2 g2 n2).
  change (Machine d2 s1 p2 v2 o2 i2 g2 n2) with (with_stack s1 m).
  change (Machine d2 s2 p2 v2 o2 i2 g2 n2) with (with_stack s2 m).
  rewrite H1, H2.
  eapply alike_trans; [apply exec_with_more_zeros|].
  apply alike_sym. apply exec_with_more_zeros.
Qed.

Lemma step_blind_to_bottom_zeros (extensions : bool) (fuel : nat) (m1 m2 : machine) :
  same_but_stack m1 m2 ->
  strip_zeros (stack m1) = strip_zeros (stack m2) ->
  alike (step extensions fuel m1) (step extensions fuel m2).
Proof.
  intros Hm Hs. unfold step.
  assert (Hf : fetch m1 = fetch m2).
  { destruct Hm as (A1 & A2 & _). unfold fetch. rewrite A1, A2. reflexivity. }
  pose proof (exec_blind_to_bottom_zeros extensions fuel (fetch m1) m1 m2 Hm Hs) as H.
  rewrite <- Hf.
  destruct (exec extensions fuel (fetch m1) m1) as [a|a| |],
           (exec extensions fuel (fetch m1) m2) as [b|b| |]; simpl in *; try tauto.
  destruct H as [(A1 & A2 & A3 & A4 & A5 & A6 & A7) As].
  split; [|exact As].
  unfold same_but_stack. simpl. rewrite A2, A3. repeat split; assumption.
Qed.

(** X14: zeros at the bottom of the stack cannot be observed: two
    machines that differ only by such zeros behave alike for any number of
    iterations, with the same grid, cursor, output and input, the same
    halting, undefined or diverging outcome, and stacks that again differ
    only by zeros at the bottom. *)
Theorem run_blind_to_bottom_zeros (extensions : bool) (fuel n : nat) :
  forall m1 m2 : machine,
  same_but_stack m1 m2 ->
  strip_zeros (stack m1) = strip_zeros (stack m2) ->
  alike (run extensions fuel n m1) (run extensions fuel n m2).
Proof.
  induction n as [|n IH]; intros m1 m2 Hm Hs.
  - simpl. split; assumption.
  - simpl.
    pose proof (step_blind_to_bottom_zeros extensions fuel m1 m2 Hm Hs) as H.
    destruct (step extensions fuel m1) as [a|a| |],
             (step extensions fuel m2) as [b|b| |];
      try exact H; try contradiction.
    destruct H as [Ha Hb]. apply IH; assumption.
Qed.

(** ** The state stays within its C++ types *)

Lemma int32_is_int32 (z : Z) : is_int32 (int32 z).
Proof.
  unfold is_int32, int32. pose proof (Z.mod_pos_bound (z + 2 ^ 31) (2 ^ 32)). lia.
Qed.

Lemma char_is_int32 (c : Z) : is_char c -> is_int32 c.
Proof. unfold is_char, is_int32. lia. Qed.

Lemma div32_is_int32 (b a q : Z) :
  is_int32 b -> is_int32 a -> div32 b a = Some q -> is_int32 q.
Proof.
  unfold div32, is_int32, INT32_MIN. intros Hb Ha.
  destruct (Z.eqb_spec a 0) as [|Hz]; [discriminate|].
  destruct ((b =? - 2 ^ 31) && (a =? -1)) eqn:E; [discriminate|].
  intros H. injection H as <-.
  apply andb_false_iff in E.
  destruct (Z.eq_dec a 1) as [->|H1]; [rewrite Z.quot_1_r; lia|].
  destruct (Z.eq_dec a (-1)) as [->|H2].
  - change (-1) with (- (1)). rewrite Z.quot_opp_r, Z.quot_1_r by lia.
    destruct E as [E|E]; [apply Z.eqb_neq in E; lia|discriminate].
  - pose proof (Z.quot_abs b a Hz) as Habs.
    assert (Hle : Z.abs b ÷ Z.abs a <= 2 ^ 30).
    { rewrite Z.quot_div_nonneg by lia.
      apply Z.div_le_upper_bound; lia. }
    lia.
Qed.

Lemma rem32_is_int32 (b a r : Z) :
  is_int32 b -> is_int32 a -> rem32 b a = Some r -> is_int32 r.
Proof.
  unfold rem32, is_int32. intros Hb Ha.
  destruct (Z.eqb_spec a 0) as [|Hz]; [discriminate|].
  destruct ((b =? INT32_MIN) && (a =? -1)); [discriminate|].
  intros H. injection H as <-.
  pose proof (Z.rem_bound_abs b a Hz). lia.
Qed.

Lemma pop_is_int32 (s : list Z) (v : Z) (t : list Z) :
  Forall is_int32 s -> pop s = (v, t) -> is_int32 v /\ Forall is_int32 t.
Proof.
  intros Hs. destruct s as [|w r]; simpl; intros H; injection H as <- <-.
  - split; [unfold is_int32; lia|constructor].
  - apply Forall_cons in Hs. exact Hs.
Qed.

Lemma at_index_is_char (d : list Z) (i : Z) : Forall is_char d -> is_char (at_index d i).
Proof.
  intros Hd. unfold at_index.
  destruct (d !! Z.to_nat i) as [c|] eqn:E; [|unfold is_char; lia].
  exact (Forall_lookup_1 _ _ _ _ Hd E).
Qed.

Lemma scan_keeps_int32 (fuel : nat) : forall m m' : machine,
  Forall is_char (data m) -> Forall is_int32 (stack m) ->
  scan fuel m = Some m' -> Forall is_int32 (stack m').
Proof.
  induction fuel as [|fuel IH]; intros m m' Hd Hs H; [discriminate|].
  simpl in H. destruct (fetch m =? code quote_char).
  - injection H as <-. exact Hs.
  - apply IH in H; [exact H|exact Hd|].
    simpl. constructor; [|exact Hs].
    apply char_is_int32, at_index_is_char, Hd.
Qed.

Lemma exec_keeps_int32 (extensions : bool) (fuel : nat) (ins : Z) (m m' : machine) :
  Forall is_char (data m) -> is_char ins -> Forall is_int32 (stack m) ->
  exec extensions fuel ins m = Running m' -> Forall is_int32 (stack m').
Proof.
  intros Hd Hins Hs. unfold exec.
  destruct (as_ascii ins) as [[] [] [] [] [] [] [] []];
    try (intros H; injection H as <-; exact Hs).
  all: repeat match goal with
              | |- context [pop ?s] =>
                  let E := fresh "E" in
                  destruct (pop s) eqn:E;
                  apply pop_is_int32 in E as [? ?]; [|assumption]
              end.
  all: repeat match goal with
              | |- context [match ?x with _ => _ end] => destruct x eqn:?
              end.
  all: intros Hrun; try discriminate Hrun; injection Hrun as <-; simpl.
  all: repeat match goal with
              | E : stack ?mm = _ |- _ => try rewrite E in *; clear E
              end.
  all: repeat match goal with
              | H : Forall is_int32 (_ :: _) |- _ => apply Forall_cons in H as [? ?]
              end.
  all: repeat (apply Forall_cons; split).
  all: try assumption.
  all: first
         [ apply int32_is_int32
         | eapply div32_is_int32; [| |eassumption]; assumption
         | eapply rem32_is_int32; [| |eassumption]; assumption
         | eapply scan_keeps_int32; [| |eassumption]; assumption
         | apply char_is_int32; unfold is_char; apply to_char_range
         | apply char_is_int32; apply at_index_is_char; exact Hd
         | unfold is_int32, is_char in *;
           change (code "0") with 48; change (code "a") with 97; lia ].
Qed.

Lemma exec_keeps_chars (extensions : bool) (fuel : nat) (ins : Z) (m m' : machine) :
  Forall is_char (data m) ->
  exec extensions fuel ins m = Running m' -> Forall is_char (data m').
Proof.
  intros Hd H.
  destruct (exec_grid_frame _ _ _ _ _ H) as [->|[_ (x & y & v & _ & ->)]];
    [exact Hd|].
  unfold store. apply Forall_insert; [exact Hd|]. apply to_char_range.
Qed.

Lemma exec_keeps_cardinal (extensions : bool) (fuel : nat) (ins : Z) (m m' : machine) :
  (exists c, dir m = dirs c) ->
  exec extensions fuel ins m = Running m' -> exists c, dir m' = dirs c.
Proof.
  intros Hc. unfold exec.
  destruct (as_ascii ins) as [[] [] [] [] [] [] [] []];
    try (intros H; injection H as <-; exact Hc).
  all: repeat match goal with
              | |- context [pop ?s] => destruct (pop s)
              end.
  all: repeat match goal with
              | |- context [match ?x with _ => _ end] => destruct x eqn:?
              end.
  all: intros Hrun; try discriminate Hrun; injection Hrun as <-; simpl.
  all: try exact Hc.
  all: try first [ exists South; reflexivity | exists North; reflexivity
                 | exists West; reflexivity | exists East; reflexivity
                 | eexists; reflexivity ].
  match goal with
  | E : scan _ _ = Some _ |- _ => apply scan_keeps_data in E as [_ ->]; exact Hc
  end.
Qed.

Lemma step_keeps_types (extensions : bool) (fuel : nat) (m m' : machine) :
  well_typed m -> step extensions fuel m = Running m' -> well_typed m'.
Proof.
  intros (Hd & Hs & Hc). unfold step.
  destruct (exec extensions fuel (fetch m) m) as [m1| | |] eqn:E; try discriminate.
  intros H. injection H as <-.
  split; [|split]; simpl.
  - exact (exec_keeps_chars _ _ _ _ _ Hd E).
  - exact (exec_keeps_int32 _ _ _ _ _ Hd (at_index_is_char _ _ Hd) Hs E).
  - exact (exec_keeps_cardinal _ _ _ _ _ Hc E).
Qed.

Lemma copy_bytes_chars (bytes : list Z) : forall (j ncols : Z) (result grid : list Z),
  copy_bytes bytes j ncols result = Some grid ->
  Forall is_char result -> Forall is_char grid.
Proof.
  induction bytes as [|byte later IH]; intros j ncols result grid Hc H.
  - injection Hc as <-. exact H.
  - cbn [copy_bytes] in Hc.
    destruct (Z.land (byte mod 256) 192 =? 128); [exact (IH _ _ _ _ Hc H)|].
    destruct (to_char byte =? 10); [exact (IH _ _ _ _ Hc H)|].
    destruct (j <? Z.of_nat data_size); [|discriminate Hc].
    apply (IH _ _ _ _ Hc). apply Forall_insert; [exact H|]. apply to_char_range.
Qed.

Lemma run_keeps_types (extensions : bool) (fuel n : nat) : forall m m' : machine,
  well_typed m -> run extensions fuel n m = Running m' -> well_typed m'.
Proof.
  induction n as [|n IH]; intros m m' Hm H.
  - injection H as <-. exact Hm.
  - simpl in H. destruct (step extensions fuel m) as [m1| | |] eqn:E; try discriminate.
    exact (IH m1 m' (step_keeps_types _ _ _ _ Hm E) H).
Qed.

(** X15: at every point of a run every cell of the grid is a [char]
    value, every stack entry a [std::int32_t] value, the direction one of the
    four vectors of [dirs], and the character executed next a [char]. *)
Theorem interpret_keeps_types
    (bytes : list Z) (extensions : bool) (stdin : list Z) (gen : nat -> cardinal)
    (fuel n : nat) (m : machine) :
  interpret bytes extensions stdin gen fuel n = Running m ->
  Forall is_char (data m) /\ Forall is_int32 (stack m) /\
  (exists c, dir m = dirs c) /\ is_char (fetch m).
Proof.
  unfold interpret. destruct (readfile bytes) as [grid|] eqn:Hload; [|discriminate].
  intros H.
  assert (Hi : well_typed (initial grid stdin gen)).
  { split; [|split]; simpl.
    - unfold readfile in Hload. apply (copy_bytes_chars _ _ _ _ _ Hload).
      apply Forall_replicate. unfold is_char. lia.
    - constructor.
    - exists East. reflexivity. }
  destruct (run_keeps_types _ _ _ _ _ Hi H) as (Hd & Hs & Hc).
  split; [exact Hd|]. split; [exact Hs|]. split; [exact Hc|].
  apply at_index_is_char. exact Hd.
Qed.

(** ** What string mode pushes *)

Lemma with_stack_same (m : machine) : with_stack (stack m) m = m.
Proof. destruct m. reflexivity. Qed.

Lemma scan_pushes_cells (k : nat) : forall m : machine,
  (forall i, (i < k)%nat -> fetch (advance i m) <> code quote_char) ->
  fetch (advance k m) = code quote_char ->
  scan (S k) m
  = Some (with_stack (rev (map (fun i => fetch (advance i m)) (seq 0 k)) ++ stack m)
                     (advance k m)).
Proof.
  induction k as [|k IH]; intros m Hfree Hq.
  - simpl in *. rewrite Hq. simpl. rewrite with_stack_same. reflexivity.
  - change (scan (S (S k)) m) with
      (if fetch m =? code quote_char then Some m
       else scan (S k) (move (with_stack (push (fetch m) (stack m)) m))).
    destruct (Z.eqb_spec (fetch m) (code quote_char)) as [E|_];
      [exfalso; exact (Hfree 0%nat ltac:(lia) E)|].
    set (m1 := move (with_stack (push (fetch m) (stack m)) m)).
    assert (Hadv : forall i, advance i m1
                             = with_stack (push (fetch m) (stack m)) (advance (S i) m)).
    { intros i. unfold m1. rewrite advance_move, advance_with_stack. reflexivity. }
    rewrite IH.
    + rewrite Hadv. f_equal.
      change (stack m1) with (fetch m :: stack m).
      cbn [seq map rev]. rewrite <- seq_shift, map_map, <- app_assoc.
      change (advance 0 m) with m. cbn [app].
      change (with_stack ?s (with_stack ?t ?x)) with (with_stack s x).
      f_equal. f_equal. f_equal. apply map_ext. intros i. rewrite Hadv. reflexivity.
    + intros i Hi. rewrite Hadv. apply (Hfree (S i)). lia.
    + rewrite Hadv. exact Hq.
Qed.

(** X16: when the [k] cells after a quote on the cursor's path hold no
    quote and the cell after them does, the quote instruction pushes these
    [k] cell values, the first one deepest, and leaves the cursor on the
    closing quote; the loop needs [k + 1] iterations. *)
Theorem string_pushes_cells_in_order (extensions : bool) (fuel k : nat) (m : machine) :
  (forall i, (1 <= i <= k)%nat -> fetch (advance i m) <> code quote_char) ->
  fetch (advance (S k) m) = code quote_char ->
  (k < fuel)%nat ->
  exec extensions fuel (code quote_char) m
  = Running (with_stack (rev (map (fun i => fetch (advance i m)) (seq 1 k)) ++ stack m)
                        (advance (S k) m)).
Proof.
  intros Hfree Hq Hfuel.
  unfold exec. change (as_ascii (code quote_char)) with quote_char. cbv iota.
  assert (Hs : scan (S k) (move m)
               = Some (with_stack
                         (rev (map (fun i => fetch (advance i m)) (seq 1 k)) ++ stack m)
                         (advance (S k) m))).
  { rewrite scan_pushes_cells.
    - rewrite advance_move. f_equal. f_equal. f_equal. f_equal.
      rewrite <- seq_shift, map_map. apply map_ext. intros i.
      rewrite advance_move. reflexivity.
    - intros i Hi. rewrite advance_move. apply Hfree. lia.
    - rewrite advance_move. exact Hq. }
  rewrite (scan_fuel_mono (S k) fuel _ _ Hs) by lia. reflexivity.
Qed.

(** ** Files of one line *)

Lemma readfile_one_line (line : list Z) :
  Forall (fun c => plain_byte c = true) line ->
  (length line <= read_limit)%nat ->
  readfile line = Some (blit line 0 (replicate data_size 0)).
Proof.
  intros Hp Hlen. pose proof data_size_value as Hsz.
  unfold readfile. rewrite take_ge by exact Hlen.
  unfold read_limit, max_row_size, max_col_size in Hlen.
  pose proof (copy_bytes_plain line [] 0 0 (replicate data_size 0) Hp) as Hc.
  rewrite app_nil_r in Hc. change (Z.of_nat 0) with 0 in Hc.
  rewrite Hc by lia. reflexivity.
Qed.

Lemma one_line_loads (line : list Z) :
  Forall (fun c => plain_byte c = true) line ->
  (length line <= read_limit)%nat ->
  readfile line = Some (loaded line).
Proof.
  intros Hp Hlen. pose proof (readfile_one_line line Hp Hlen) as H.
  rewrite (loaded_grid _ _ H). exact H.
Qed.

(** The first row of the grid of a file of one line. *)
Lemma one_line_cell (line : list Z) (i : nat) :
  Forall (fun c => plain_byte c = true) line ->
  (length line <= 81)%nat -> (i < 81)%nat ->
  at_index (loaded line) (cell_index (Z.of_nat i) 0)
  = match line !! i with
    | Some b => to_char b
    | None => 0
    end.
Proof.
  intros Hp Hlen Hi.
  rewrite (loaded_grid line (blit line 0 (replicate data_size 0)))
    by (apply readfile_one_line;
        try assumption; unfold read_limit, max_row_size, max_col_size; lia).
  assert (Hidx : Z.to_nat (cell_index (Z.of_nat i) 0) = i).
  { unfold cell_index, to_size_t, cols, max_col_size.
    rewrite Z.mod_small by lia. lia. }
  unfold at_index. rewrite Hidx.
  destruct (line !! i) as [b|] eqn:E.
  - rewrite blit_lookup_inside.
    + rewrite Nat.sub_0_r, E. reflexivity.
    + apply lookup_lt_Some in E. lia.
    + rewrite length_replicate. unfold data_size, max_row_size, max_col_size. lia.
  - apply lookup_ge_None in E. rewrite blit_lookup_after by lia.
    rewrite lookup_replicate_2; [reflexivity|].
    unfold data_size, max_row_size, max_col_size. lia.
Qed.

(** ** A program of digits *)

Lemma digit_cases (d : Z) :
  0 <= d <= 9 ->
  d = 0 \/ d = 1 \/ d = 2 \/ d = 3 \/ d = 4 \/ d = 5 \/ d = 6 \/ d = 7 \/ d = 8 \/ d = 9.
Proof. lia. Qed.

Lemma exec_digit (extensions : bool) (fuel : nat) (d : Z) (m : machine) :
  0 <= d <= 9 ->
  exec extensions fuel (d + code "0") m = Running (with_stack (push d (stack m)) m).
Proof.
  intros Hd.
  destruct (digit_cases d Hd) as [->|[->|[->|[->|[->|[->|[->|[->|[->| ->]]]]]]]]];
    reflexivity.
Qed.

Lemma digit_is_plain (d : Z) : 0 <= d <= 9 -> plain_byte (d + code "0") = true.
Proof.
  intros Hd.
  destruct (digit_cases d Hd) as [->|[->|[->|[->|[->|[->|[->|[->|[->| ->]]]]]]]]];
    reflexivity.
Qed.

Lemma digit_program_plain (digits : list Z) :
  Forall (fun d => 0 <= d <= 9) digits ->
  Forall (fun b => plain_byte b = true) (digit_program digits).
Proof.
  intros H. unfold digit_program. apply Forall_app. split.
  - apply Forall_fmap. eapply Forall_impl; [exact H|].
    intros d Hd. apply digit_is_plain. exact Hd.
  - apply Forall_singleton. reflexivity.
Qed.

(** The cells of the first row that the program fills. *)
Lemma digit_program_cell (digits : list Z) (k : nat) :
  Forall (fun d => 0 <= d <= 9) digits -> (length digits <= 80)%nat ->
  (k <= length digits)%nat ->
  at_index (loaded (digit_program digits)) (cell_index (Z.of_nat k) 0)
  = match digits !! k with
    | Some d => d + code "0"
    | None => code "@"
    end.
Proof.
  intros Hd Hlen Hk.
  assert (Hsize : length (digit_program digits) = S (length digits)).
  { unfold digit_program. rewrite length_app, length_map. simpl. lia. }
  rewrite one_line_cell by (try apply digit_program_plain; try assumption; lia).
  unfold digit_program.
  destruct (digits !! k) as [d|] eqn:E.
  - rewrite lookup_app_l by (rewrite length_map; apply lookup_lt_Some in E; lia).
    rewrite list_lookup_fmap, E. simpl.
    apply to_char_small. apply (Forall_lookup_1 _ _ _ _ Hd) in E.
    change (code "0") with 48. lia.
  - apply lookup_ge_None in E. assert (k = length digits) as -> by lia.
    rewrite lookup_app_r by (rewrite length_map; lia).
    rewrite length_map, Nat.sub_diag. reflexivity.
Qed.

Lemma digit_program_run (digits : list Z) (extensions : bool) (stdin : list Z)
    (gen : nat -> cardinal) (fuel : nat) :
  Forall (fun d => 0 <= d <= 9) digits -> (length digits <= 80)%nat ->
  forall k, (k <= length digits)%nat ->
  run extensions fuel k (initial (loaded (digit_program digits)) stdin gen)
  = Running (Machine (loaded (digit_program digits)) (rev (take k digits))
                     (Z.of_nat k, 0) (1, 0) [] stdin gen 0%nat).
Proof.
  intros Hd Hlen k. induction k as [|k IH]; intros Hk; [reflexivity|].
  replace (S k) with (k + 1)%nat by lia.
  rewrite run_app, IH by lia. rewrite run_one. unfold step.
  replace (k + 1)%nat with (S k) by lia.
  set (G := loaded (digit_program digits)).
  change (fetch (Machine G (rev (take k digits)) (Z.of_nat k, 0) (1, 0) [] stdin gen 0%nat))
    with (at_index G (cell_index (Z.of_nat k) 0)).
  unfold G at 1. rewrite digit_program_cell by (try assumption; lia).
  destruct (digits !! k) as [d|] eqn:E; [|apply lookup_ge_None in E; lia].
  rewrite exec_digit by exact (Forall_lookup_1 _ _ _ _ Hd E).
  rewrite (take_S_r _ _ _ E), rev_app_distr.
  unfold move. cbn [pos dir with_stack with_pos stack data output input rng drawn fst snd push rev app].
  pose proof cols_small as Hc. pose proof rows_small as Hr.
  rewrite wrap_axis_forward by (unfold cols, max_col_size in *; lia).
  rewrite wrap_axis_still by (unfold rows, max_row_size in *; lia).
  rewrite Z.mod_small by (unfold cols, max_col_size; lia).
  replace (Z.of_nat k + 1) with (Z.of_nat (S k)) by lia.
  reflexivity.
Qed.

(** X17: the program made of at most 80 digit characters followed by [@]
    halts after one iteration per digit and one for [@], with the digits'
    values on the stack, the last digit on top, and nothing printed or
    read. *)
Theorem digit_program_pushes_digits (digits : list Z) (extensions : bool)
    (stdin : list Z) (gen : nat -> cardinal) (fuel : nat) :
  Forall (fun d => 0 <= d <= 9) digits -> (length digits <= 80)%nat ->
  exists m,
    interpret (digit_program digits) extensions stdin gen fuel (length digits) = Running m /\
    interpret (digit_program digits) extensions stdin gen fuel (S (length digits)) = Halted m /\
    stack m = rev digits /\ output m = [] /\ input m = stdin /\
    pos m = (Z.of_nat (length digits), 0).
Proof.
  intros Hd Hlen.
  pose proof (digit_program_run digits extensions stdin gen fuel Hd Hlen
                (length digits) (Nat.le_refl _)) as Hrun.
  rewrite firstn_all in Hrun.
  assert (Hload : readfile (digit_program digits) = Some (loaded (digit_program digits))).
  { apply one_line_loads; [apply digit_program_plain; exact Hd|].
    unfold digit_program. rewrite length_app, length_map, read_limit_value.
    cbn [length]. lia. }
  eexists. split; [rewrite (interpret_unfold _ _ _ _ _ _ _ Hload); exact Hrun|].
  split; [|repeat split].
  rewrite (interpret_unfold _ _ _ _ _ _ _ Hload).
  replace (S (length digits)) with (length digits + 1)%nat by lia.
  rewrite run_app, Hrun, run_one. unfold step.
  set (G := loaded (digit_program digits)).
  change (fetch (Machine G (rev digits) (Z.of_nat (length digits), 0) (1, 0) []
                         stdin gen 0%nat))
    with (at_index G (cell_index (Z.of_nat (length digits)) 0)).
  unfold G at 1. rewrite digit_program_cell by (try assumption; lia).
  rewrite (lookup_ge_None_2 digits) by lia. reflexivity.
Qed.

(** ** The command line *)

Section CommandLineFacts.

Variable files : String.string -> option (list Z).
Variable seeds : nat -> nat -> cardinal.
Variable fuel budget : nat.

Lemma main_plain (filepath : String.string) (rest : list String.string)
    (k : nat) (stdin : list Z) :
  is_flag filepath = false ->
  main files seeds fuel budget (filepath :: rest) k stdin
  = call_then files seeds fuel budget filepath false k stdin
              (main files seeds fuel budget rest).
Proof. intros H. simpl. rewrite H. reflexivity. Qed.






Lemma call_then_orderly (filepath : String.string) (b : bool) (k : nat) (stdin : list Z)
    (later : nat -> list Z -> list event * ending) :
  (forall k' stdin', orderly files seeds fuel budget (later k' stdin')) ->
  orderly files seeds fuel budget
          (call_then files seeds fuel budget filepath b k stdin later).
Proof.
  intros Hlater. unfold call_then.
  destruct (files filepath) as [bytes|] eqn:Hopen.
  2:{ exists [Call filepath b], (CouldNotOpen filepath). split; reflexivity. }
  destruct (interpret bytes b stdin (seeds k) fuel budget) as [m|m| |] eqn:Hcall.
  - exists [], filepath, b, bytes, k, stdin.
    repeat split; try assumption. intros m'. rewrite Hcall. discriminate.
  - specialize (Hlater (S k) (input m)). unfold orderly in *. cbn [fst snd].
    destruct (snd (later (S k) (input m))) as [[|]| |].
    + cbn [forallb is_call]. exact Hlater.
    + destruct Hlater as (calls & text & -> & Hc).
      exists (Call filepath b :: calls), text. split; [reflexivity|exact Hc].
    + destruct Hlater as (calls & f & e & bs & k' & i & -> & Hc & Hrest).
      exists (Call filepath b :: calls), f, e, bs, k', i.
      split; [reflexivity|]. split; [exact Hc|exact Hrest].
    + destruct Hlater as (calls & f & e & bs & k' & i & -> & Hc & Hrest).
      exists (Call filepath b :: calls), f, e, bs, k', i.
      split; [reflexivity|]. split; [exact Hc|exact Hrest].
  - exists [], filepath, b, bytes, k, stdin.
    repeat split; try assumption. intros m'. rewrite Hcall. discriminate.
  - exists [], filepath, b, bytes, k, stdin.
    repeat split; try assumption. intros m'. rewrite Hcall. discriminate.
Qed.

(** X20: whatever the command line, the files and the programs in them,
    what [main] has done is in one of three shapes. It has ended with
    [EXIT_SUCCESS] after calls of [interpret] only. Or it has ended with
    [EXIT_FAILURE] after calls of [interpret] and then exactly one message,
    the last thing it did. Or it has not ended: it has made calls of
    [interpret] only and the last of them, on a file that opens, has not
    returned, so that nothing after it on the command line has been looked
    at. *)
Theorem main_stops_at_the_first_error
    (args : list String.string) (k : nat) (stdin : list Z) :
  orderly files seeds fuel budget (main files seeds fuel budget args k stdin) /\
  match snd (main files seeds fuel budget args k stdin) with
  | Exit EXIT_SUCCESS =>
      forallb is_call (fst (main files seeds fuel budget args k stdin)) = true
  | Exit EXIT_FAILURE =>
      exists calls text,
        fst (main files seeds fuel budget args k stdin) = calls ++ [Complain text] /\
        forallb is_call calls = true
  | Lost | Inside =>
      exists calls filepath extensions,
        fst (main files seeds fuel budget args k stdin)
        = calls ++ [Call filepath extensions] /\
        forallb is_call calls = true
  end.
Proof.
  assert (H : forall n args k stdin, length args = n ->
            orderly files seeds fuel budget (main files seeds fuel budget args k stdin)).
  { clear args k stdin. intros n.
    induction n as [n IH] using lt_wf_ind. intros args k stdin Hn.
    destruct args as [|arg rest]; [reflexivity|].
    cbn [main]. destruct (is_flag arg).
    - destruct (flag_value arg) as [b|].
      + destruct rest as [|filepath rest'].
        * exists [], ExpectedAFile. split; reflexivity.
        * apply call_then_orderly. intros k' stdin'.
          apply (IH (length rest')); [simpl in Hn; lia|reflexivity].
      + exists [], InvalidArguments. split; reflexivity.
    - apply call_then_orderly. intros k' stdin'.
      apply (IH (length rest)); [simpl in Hn; lia|reflexivity]. }
  specialize (H (length args) args k stdin eq_refl).
  split; [exact H|].
  unfold orderly in H.
  destruct (snd (main files seeds fuel budget args k stdin)) as [[|]| |];
    try exact H.
  - destruct H as (calls & f & e & _ & _ & _ & H1 & H2 & _). exists calls, f, e. tauto.
  - destruct H as (calls & f & e & _ & _ & _ & H1 & H2 & _). exists calls, f, e. tauto.
Qed.

Lemma blank_step (extensions : bool) (m : machine) :
  data m = blank_grid -> step extensions fuel m = Running (move m).
Proof.
  intros Hd. unfold step.
  assert (Hf : fetch m = 0).
  { unfold fetch, at_index. rewrite Hd. unfold blank_grid.
    destruct (replicate data_size 0 !! Z.to_nat (cell_index (fst (pos m)) (snd (pos m))))
      as [c|] eqn:E; [|reflexivity].
    apply lookup_replicate in E as [-> _]. reflexivity. }
  rewrite Hf. reflexivity.
Qed.

Lemma blank_run (extensions : bool) (n : nat) : forall m : machine,
  data m = blank_grid -> run extensions fuel n m = Running (advance n m).
Proof.
  induction n as [|n IH]; intros m Hd; [reflexivity|].
  cbn [run]. rewrite blank_step by exact Hd.
  rewrite IH by exact Hd. rewrite advance_move. reflexivity.
Qed.

(** X24: a call of [interpret] on an empty file never returns: however
    many iterations it is followed for, the cursor is still moving over
    blank cells; [main] is then still inside this call and has looked at
    nothing that comes after it on the command line. *)
Theorem main_stays_inside_an_empty_program
    (filepath : String.string) (rest : list String.string) (k : nat) (stdin : list Z) :
  is_flag filepath = false ->
  files filepath = Some [] ->
  interpret [] false stdin (seeds k) fuel budget
  = Running (advance budget (initial blank_grid stdin (seeds k))) /\
  main files seeds fuel budget (filepath :: rest) k stdin = ([Call filepath false], Inside).
Proof.
  intros Hf Hopen.
  assert (Hrun : interpret [] false stdin (seeds k) fuel budget
                 = Running (advance budget (initial blank_grid stdin (seeds k)))).
  { rewrite (interpret_unfold [] _ _ _ _ _ blank_grid) by reflexivity.
    apply blank_run. reflexivity. }
  split; [exact Hrun|].
  rewrite main_plain by exact Hf. unfold call_then. rewrite Hopen, Hrun. reflexivity.
Qed.

End CommandLineFacts.

(** ** A string and its printing *)

(** The cursor of a machine heading east in the first row. *)
Lemma fetch_first_row (G : list Z) (s : list Z) (i : nat) (o : list out_item)
    (stdin : list Z) (gen : nat -> cardinal) (n : nat) :
  fetch (Machine G s (Z.of_nat i, 0) (1, 0) o stdin gen n)
  = at_index G (cell_index (Z.of_nat i) 0).
Proof. reflexivity. Qed.

Lemma move_first_row (G : list Z) (s : list Z) (i : nat) (o : list out_item)
    (stdin : list Z) (gen : nat -> cardinal) (n : nat) :
  (i < 80)%nat ->
  move (Machine G s (Z.of_nat i, 0) (1, 0) o stdin gen n)
  = Machine G s (Z.of_nat (S i), 0) (1, 0) o stdin gen n.
Proof.
  intros Hi. unfold move.
  cbn [pos dir with_pos stack data output input rng drawn fst snd].
  pose proof cols_small as Hc. pose proof rows_small as Hr.
  rewrite wrap_axis_forward by (unfold cols, max_col_size in *; lia).
  rewrite wrap_axis_still by (unfold rows, max_row_size in *; lia).
  rewrite Z.mod_small by (unfold cols, max_col_size; lia).
  replace (Z.of_nat i + 1) with (Z.of_nat (S i)) by lia. reflexivity.
Qed.

Lemma advance_first_row (G : list Z) (s : list Z) (o : list out_item)
    (stdin : list Z) (gen : nat -> cardinal) (n : nat) (k : nat) :
  (k <= 80)%nat ->
  advance k (Machine G s (0, 0) (1, 0) o stdin gen n)
  = Machine G s (Z.of_nat k, 0) (1, 0) o stdin gen n.
Proof.
  induction k as [|k IH]; intros Hk; [reflexivity|].
  change (advance (S k) ?m) with (move (advance k m)).
  rewrite IH by lia. apply move_first_row. lia.
Qed.

Lemma ascii_byte_is_plain (b : Z) : 0 <= b < 128 -> b <> 10 -> plain_byte b = true.
Proof.
  intros Hb Hn.
  pose proof (all_coordinates 128 (fun c => (c =? 10) || plain_byte c) b) as H.
  cbv beta in H. rewrite (proj2 (Z.eqb_neq b 10) Hn) in H.
  apply H; [vm_compute; reflexivity|lia].
Qed.

Lemma map_seq_lookup (f : nat -> Z) (l : list Z) :
  (forall i b, l !! i = Some b -> f i = b) ->
  map f (seq 0 (length l)) = l.
Proof.
  intros H. apply list_eq. intros i.
  rewrite list_lookup_fmap.
  destruct (l !! i) as [b|] eqn:E.
  - rewrite lookup_seq_lt by (apply lookup_lt_Some in E; exact E).
    simpl. rewrite (H i b E). reflexivity.
  - apply lookup_ge_None in E. rewrite lookup_seq_ge by exact E. reflexivity.
Qed.

Lemma exec_quote_from_scan (extensions : bool) (fuel k : nat) (m r : machine) :
  scan k (move m) = Some r -> (k <= fuel)%nat ->
  exec extensions fuel (code quote_char) m = Running r.
Proof.
  intros Hs Hk. unfold exec.
  change (as_ascii (code quote_char)) with quote_char. cbv iota.
  rewrite (scan_fuel_mono k fuel _ _ Hs Hk). reflexivity.
Qed.

Lemma exec_comma (extensions : bool) (fuel : nat) (m : machine) (v : Z) (s : list Z) :
  stack m = v :: s ->
  exec extensions fuel (code ",") m
  = Running (with_output (output m ++ [PrintChar (to_char v)]) (with_stack s m)).
Proof.
  intros H. unfold exec. change (as_ascii (code ",")) with ","%char. cbv iota.
  rewrite H. reflexivity.
Qed.

Section PrintProgram.

Variable text : list Z.
Hypothesis text_ascii :
  Forall (fun b => 0 <= b < 128 /\ b <> 10 /\ b <> code quote_char) text.
Hypothesis text_short : (length text <= 39)%nat.

Lemma print_program_length : length (print_program text) = (2 * length text + 3)%nat.
Proof.
  unfold print_program. rewrite !length_app, length_replicate. simpl. lia.
Qed.

Lemma print_program_plain : Forall (fun c => plain_byte c = true) (print_program text).
Proof.
  unfold print_program. repeat (apply Forall_app; split).
  - apply Forall_singleton. reflexivity.
  - eapply Forall_impl; [exact text_ascii|].
    intros b (Hb & Hn & _). apply ascii_byte_is_plain; assumption.
  - apply Forall_singleton. reflexivity.
  - apply Forall_replicate. reflexivity.
  - apply Forall_singleton. reflexivity.
Qed.

Lemma print_program_loads :
  readfile (print_program text) = Some (loaded (print_program text)).
Proof.
  apply one_line_loads; [apply print_program_plain|].
  rewrite print_program_length, read_limit_value. lia.
Qed.

Lemma print_program_tail (i : nat) :
  print_program text !! S i
  = (text ++ [code quote_char] ++ replicate (length text) (code ",") ++ [code "@"]) !! i.
Proof. reflexivity. Qed.

Lemma print_program_text (i : nat) (b : Z) :
  text !! i = Some b -> print_program text !! S i = Some b.
Proof.
  intros H. rewrite print_program_tail.
  rewrite lookup_app_l by (apply lookup_lt_Some in H; exact H). exact H.
Qed.

Lemma print_program_after_text (i : nat) :
  print_program text !! S (length text + i)
  = ([code quote_char] ++ replicate (length text) (code ",") ++ [code "@"]) !! i.
Proof.
  rewrite print_program_tail. rewrite lookup_app_r by lia.
  f_equal. lia.
Qed.

Lemma print_program_closing : print_program text !! S (length text) = Some (code quote_char).
Proof.
  pose proof (print_program_after_text 0) as H.
  rewrite Nat.add_0_r in H. rewrite H. reflexivity.
Qed.

Lemma print_program_comma (j : nat) :
  (j < length text)%nat ->
  print_program text !! (length text + 2 + j)%nat = Some (code ",").
Proof.
  intros Hj.
  replace (length text + 2 + j)%nat with (S (length text + S j)) by lia.
  rewrite print_program_after_text.
  change (([code quote_char] ++ replicate (length text) (code ",") ++ [code "@"]) !! S j)
    with ((replicate (length text) (code ",") ++ [code "@"]) !! j).
  rewrite lookup_app_l by (rewrite length_replicate; exact Hj).
  apply lookup_replicate_2. exact Hj.
Qed.

Lemma print_program_at : print_program text !! (2 * length text + 2)%nat = Some (code "@").
Proof.
  replace (2 * length text + 2)%nat with (S (length text + S (length text))) by lia.
  rewrite print_program_after_text.
  change (([code quote_char] ++ replicate (length text) (code ",") ++ [code "@"])
            !! S (length text))
    with ((replicate (length text) (code ",") ++ [code "@"]) !! length text).
  rewrite lookup_app_r by (rewrite length_replicate; lia).
  rewrite length_replicate, Nat.sub_diag. reflexivity.
Qed.

Lemma print_program_cell (i : nat) (b : Z) :
  print_program text !! i = Some b -> 0 <= b < 128 ->
  at_index (loaded (print_program text)) (cell_index (Z.of_nat i) 0) = b.
Proof.
  intros H Hb. pose proof print_program_length as Hl.
  rewrite one_line_cell.
  - rewrite H. apply to_char_small. lia.
  - apply print_program_plain.
  - lia.
  - apply lookup_lt_Some in H. lia.
Qed.

Variable extensions : bool.
Variable stdin : list Z.
Variable gen : nat -> cardinal.
Variable fuel : nat.
Hypothesis enough_fuel : (length text < fuel)%nat.

Lemma print_program_string :
  step extensions fuel (initial (loaded (print_program text)) stdin gen)
  = Running (Machine (loaded (print_program text)) (rev text)
                     (Z.of_nat (length text + 2), 0) (1, 0) [] stdin gen 0%nat).
Proof.
  set (G := loaded (print_program text)).
  set (k := length text).
  assert (Hadv : forall i, (i <= k)%nat ->
             advance i (move (initial G stdin gen))
             = Machine G [] (Z.of_nat (S i), 0) (1, 0) [] stdin gen 0%nat).
  { intros i Hi. rewrite advance_move. unfold initial.
    apply advance_first_row. unfold k in Hi. lia. }
  assert (Hcell : forall i b, text !! i = Some b ->
             fetch (advance i (move (initial G stdin gen))) = b).
  { intros i b E. rewrite Hadv by (apply lookup_lt_Some in E; unfold k; lia).
    rewrite fetch_first_row. unfold G. apply print_program_cell.
    - apply print_program_text. exact E.
    - apply (Forall_lookup_1 _ _ _ _ text_ascii) in E. lia. }
  assert (Hscan : scan (S k) (move (initial G stdin gen))
                  = Some (Machine G (rev text) (Z.of_nat (S k), 0) (1, 0) [] stdin gen 0%nat)).
  { rewrite scan_pushes_cells.
    - rewrite Hadv by lia. unfold k. rewrite (map_seq_lookup _ text Hcell).
      rewrite app_nil_r. reflexivity.
    - intros i Hi.
      destruct (lookup_lt_is_Some_2 text i Hi) as [b E].
      rewrite (Hcell i b E).
      apply (Forall_lookup_1 _ _ _ _ text_ascii) in E. tauto.
    - rewrite Hadv by lia. rewrite fetch_first_row. unfold G.
      apply print_program_cell; [apply print_program_closing|].
      change (code quote_char) with 34. lia. }
  unfold step.
  assert (H0 : fetch (initial G stdin gen) = code quote_char).
  { unfold initial. change (0, 0) with (Z.of_nat 0, 0). rewrite fetch_first_row.
    unfold G. apply print_program_cell; [reflexivity|].
    change (code quote_char) with 34. lia. }
  rewrite H0, (exec_quote_from_scan extensions fuel (S k) _ _ Hscan) by (unfold k; lia).
  rewrite move_first_row by (unfold k; lia).
  replace (S (S k)) with (k + 2)%nat by lia. reflexivity.
Qed.

Lemma print_program_commas (j : nat) :
  (j <= length text)%nat ->
  run extensions fuel j
      (Machine (loaded (print_program text)) (rev text)
               (Z.of_nat (length text + 2), 0) (1, 0) [] stdin gen 0%nat)
  = Running (Machine (loaded (print_program text)) (drop j (rev text))
                     (Z.of_nat (length text + 2 + j), 0) (1, 0)
                     (map PrintChar (take j (rev text))) stdin gen 0%nat).
Proof.
  induction j as [|j IH]; intros Hj.
  - simpl. rewrite Nat.add_0_r, drop_0. reflexivity.
  - replace (S j) with (j + 1)%nat at 1 by lia.
    rewrite run_app, IH by lia. rewrite run_one. unfold step.
    rewrite fetch_first_row.
    rewrite (print_program_cell _ _ (print_program_comma j ltac:(lia)))
      by (change (code ",") with 44; lia).
    destruct (lookup_lt_is_Some_2 (rev text) j ltac:(rewrite length_rev; lia)) as [c E].
    assert (Hc : 0 <= c < 128).
    { pose proof (Forall_lookup_1 _ _ _ _ (Forall_rev text_ascii) E) as Hc.
      cbv beta in Hc. lia. }
    rewrite (exec_comma extensions fuel _ c (drop (S j) (rev text)))
      by (cbn [stack]; rewrite (drop_S _ _ _ E); reflexivity).
    unfold with_output, with_stack.
    cbn [data stack pos dir output input rng drawn].
    rewrite move_first_row by lia.
    rewrite (take_S_r _ _ _ E), map_app, to_char_small by lia.
    replace (S (length text + 2 + j)) with (length text + 2 + S j)%nat by lia.
    reflexivity.
Qed.

End PrintProgram.

(** X21: the program made of a quoted text of at most 39 characters
    (ASCII, without newline or quote), as many [,] and [@] halts after one
    iteration for the string, one per [,] and one for [@], having printed
    the characters of the text last to first and emptied the stack. *)
Theorem string_then_commas_print_in_reverse (text : list Z) (extensions : bool)
    (stdin : list Z) (gen : nat -> cardinal) (fuel : nat) :
  Forall (fun b => 0 <= b < 128 /\ b <> 10 /\ b <> code quote_char) text ->
  (length text <= 39)%nat ->
  (length text < fuel)%nat ->
  exists m,
    interpret (print_program text) extensions stdin gen fuel (length text + 2) = Halted m /\
    output m = map PrintChar (rev text) /\ stack m = [] /\ input m = stdin.
Proof.
  intros Ha Hs Hf.
  eexists. split; [|split; [|split]].
  - rewrite (interpret_unfold _ _ _ _ _ _ _ (print_program_loads text Ha Hs)).
    replace (length text + 2)%nat with (1 + (length text + 1))%nat by lia.
    rewrite run_app, run_one.
    rewrite (print_program_string text Ha Hs extensions stdin gen fuel Hf).
    rewrite run_app.
    rewrite (print_program_commas text Ha Hs extensions stdin gen fuel Hf (length text))
      by lia.
    replace (length text + 2 + length text)%nat with (2 * length text + 2)%nat by lia.
    rewrite run_one. unfold step. rewrite fetch_first_row.
    rewrite (print_program_cell text Ha Hs _ _ (print_program_at text Hs))
      by (change (code "@") with 64; lia).
    reflexivity.
  - cbn [output]. rewrite <- (length_rev text), firstn_all. reflexivity.
  - cbn [stack]. rewrite <- (length_rev text). apply drop_all.
  - reflexivity.
Qed.

(** ** Operand order of [+] and [*] *)

(** X22: exchanging the two operands with [\] first does not change what
    [+] and [*] do, also on a stack of fewer than two values. *)
Theorem swap_then_add_or_multiply (extensions : bool) (fuel : nat) (m m1 : machine) :
  exec extensions fuel (code "\") m = Running m1 ->
  exec extensions fuel (code "+") m1 = exec extensions fuel (code "+") m /\
  exec extensions fuel (code "*") m1 = exec extensions fuel (code "*") m.
Proof.
  unfold exec at 1. change (as_ascii (code "\")) with "\"%char. cbv iota.
  destruct (stack m) as [|a [|b r]] eqn:E; intros H; injection H as <-.
  - split; reflexivity.
  - unfold exec. change (as_ascii (code "+")) with "+"%char.
    change (as_ascii (code "*")) with "*"%char. cbv iota.
    rewrite E. cbn [stack with_stack push pop].
    unfold add32, mul32. rewrite (Z.add_comm 0 a), (Z.mul_comm 0 a).
    split; reflexivity.
  - unfold exec. change (as_ascii (code "+")) with "+"%char.
    change (as_ascii (code "*")) with "*"%char. cbv iota.
    rewrite E. cbn [stack with_stack push pop].
    unfold add32, mul32. rewrite (Z.add_comm b a), (Z.mul_comm b a).
    split; reflexivity.
Qed.

(** ** Concrete instances of the further properties *)

(** The two-line file [>v], newline, [@]. *)
Lemma readfile_lays_out_rows_witness :
  (exists grid,
     readfile (text_of [[code ">"; code "v"]] [code "@"]) = Some grid /\
     at_index grid (cell_index 1 0) = code "v") /\
  (exists grid,
     readfile (text_of [[code ">"; code "v"]] [code "@"]) = Some grid /\
     at_index grid (cell_index 0 1) = code "@") /\
  (exists grid,
     readfile (text_of [[code ">"; code "v"]] [code "@"]) = Some grid /\
     at_index grid (cell_index 2 0) = 0).
Proof.
  assert (Hp : Forall (Forall (fun b => plain_byte b = true))
                      ([[code ">"; code "v"]] ++ [[code "@"]]))
    by (repeat constructor).
  assert (Hw : Forall (fun l : list Z => (length l <= 81)%nat)
                      ([[code ">"; code "v"]] ++ [[code "@"]]))
    by (repeat constructor; simpl; lia).
  assert (Hr : (length [[code ">"; code "v"]] < 25)%nat \/
               ((length [[code ">"; code "v"]] = 25)%nat /\ [code "@"] = []))
    by (left; simpl; lia).
  assert (Hl : (length (text_of [[code ">"; code "v"]] [code "@"]) <= read_limit)%nat)
    by (vm_compute; lia).
  split; [|split].
  - exact (readfile_lays_out_rows [[code ">"; code "v"]] [code "@"] 1 0 Hp Hw Hr Hl
             ltac:(unfold cols, max_col_size; lia) ltac:(unfold rows, max_row_size; lia)).
  - exact (readfile_lays_out_rows [[code ">"; code "v"]] [code "@"] 0 1 Hp Hw Hr Hl
             ltac:(unfold cols, max_col_size; lia) ltac:(unfold rows, max_row_size; lia)).
  - exact (readfile_lays_out_rows [[code ">"; code "v"]] [code "@"] 2 0 Hp Hw Hr Hl
             ltac:(unfold cols, max_col_size; lia) ltac:(unfold rows, max_row_size; lia)).
Defined.

(** A line of 100 characters [1]: its character 90 is in column 9 of
    row 1. *)
Lemma readfile_wraps_a_long_line_witness :
  (exists grid,
     readfile (replicate 100 (code "1")) = Some grid /\
     at_index grid (cell_index (Z.of_nat 90 mod cols) (Z.of_nat 90 / cols))
     = to_char (code "1")) /\
  (Z.of_nat 90 mod cols, Z.of_nat 90 / cols) = (9, 1).
Proof.
  split; [|reflexivity].
  apply (readfile_wraps_a_long_line (replicate 100 (code "1")) 90 (code "1")).
  - apply Forall_replicate. reflexivity.
  - vm_compute. lia.
  - reflexivity.
Defined.

(** The program [p] on an empty stack writes a zero over itself. *)
Lemma only_put_changes_the_grid_witness :
  exists m',
    step false 0 (initial (loaded [code "p"]) [] (fun _ => South)) = Running m' /\
    (data m' = data (initial (loaded [code "p"]) [] (fun _ => South)) \/
     (as_ascii (fetch (initial (loaded [code "p"]) [] (fun _ => South))) = "p"%char /\
      exists x y v,
        0 <= x < max_col_size /\ 0 <= y < max_row_size /\
        data m' = <[Z.to_nat (y * cols + x) := to_char v]>
                    (data (initial (loaded [code "p"]) [] (fun _ => South))))).
Proof.
  eexists. split; [reflexivity|].
  apply (only_put_changes_the_grid false 0%nat). reflexivity.
Defined.

Lemma padding_column_is_never_written_witness :
  exists m,
    readfile [code "p"] = Some (loaded [code "p"]) /\
    interpret [code "p"] false [] (fun _ => South) 0 1 = Running m /\
    at_index (data m) (cell_index max_col_size 0)
    = at_index (loaded [code "p"]) (cell_index max_col_size 0).
Proof.
  assert (Hload : readfile [code "p"] = Some (loaded [code "p"]))
    by (vm_compute; reflexivity).
  eexists. split; [exact Hload|].
  split; [rewrite (interpret_unfold _ _ _ _ _ _ _ Hload); reflexivity|].
  apply (padding_column_is_never_written [code "p"] (loaded [code "p"])
           false [] (fun _ => South) 0 1).
  - exact Hload.
  - rewrite (interpret_unfold _ _ _ _ _ _ _ Hload). reflexivity.
  - unfold rows, max_row_size. lia.
Defined.

Lemma put_then_get_elsewhere_witness :
  exists m1,
    exec false 0 (code "p") (with_stack [3; 5; 65] idle) = Running m1 /\
    stack m1 = [] /\
    forall m2 rest2,
      data m2 = data m1 -> stack m2 = 3 :: 6 :: rest2 ->
      exec false 0 (code "g") m2
      = Running (with_stack
                   (at_index (data (with_stack [3; 5; 65] idle)) (cell_index 6 3) :: rest2)
                   m2).
Proof.
  apply (put_then_get_elsewhere false 0%nat (with_stack [3; 5; 65] idle) 5 3 6 3 65 []).
  - unfold max_col_size. lia.
  - unfold max_row_size. lia.
  - intros E. discriminate E.
  - reflexivity.
Defined.

Lemma get_out_of_bounds_pushes_zero_witness :
  exec false 0 (code "g") (with_stack [3; 80; 7] idle)
  = Running (with_stack [0; 7] (with_stack [3; 80; 7] idle)).
Proof.
  apply (get_out_of_bounds_pushes_zero false 0%nat (with_stack [3; 80; 7] idle)
           80 3 [80; 7] [7]); try reflexivity.
  right. left. unfold max_col_size. lia.
Defined.

(** The program [\-.] started on the stack [5] and on the stack [5],
    [0], [0] (from the top). *)
Lemma run_blind_to_bottom_zeros_witness :
  alike (run false 0 3 (with_stack [5; 0; 0]
                          (initial (loaded [code "\"; code "-"; code "."]) []
                                   (fun _ => South))))
        (run false 0 3 (with_stack [5]
                          (initial (loaded [code "\"; code "-"; code "."]) []
                                   (fun _ => South)))).
Proof.
  apply (run_blind_to_bottom_zeros false 0 3).
  - repeat split.
  - reflexivity.
Defined.

Lemma interpret_keeps_types_witness :
  interpret [code "<"] false [] (fun _ => South) 0 1 = Running after_turn /\
  Forall is_char (data after_turn) /\ Forall is_int32 (stack after_turn) /\
  (exists c, dir after_turn = dirs c) /\ is_char (fetch after_turn).
Proof.
  assert (H : interpret [code "<"] false [] (fun _ => South) 0 1 = Running after_turn)
    by (vm_compute; reflexivity).
  split; [exact H|].
  exact (interpret_keeps_types _ _ _ _ _ _ _ H).
Defined.

(** The program made of a quote, [A], [B] and a quote. *)
Lemma string_pushes_cells_in_order_witness :
  exec false 3 (code quote_char)
       (initial (loaded [code quote_char; code "A"; code "B"; code quote_char]) []
                (fun _ => South))
  = Running
      (with_stack [code "B"; code "A"]
         (advance 3 (initial (loaded [code quote_char; code "A"; code "B"; code quote_char])
                             [] (fun _ => South)))).
Proof.
  refine (string_pushes_cells_in_order false 3 2
            (initial (loaded [code quote_char; code "A"; code "B"; code quote_char]) []
                     (fun _ => South)) _ _ _).
  - intros i Hi.
    assert (Hc : i = 1%nat \/ i = 2%nat) by lia.
    destruct Hc as [-> | ->]; vm_compute; discriminate.
  - reflexivity.
  - lia.
Defined.

Lemma digit_program_pushes_digits_witness :
  exists m,
    interpret (digit_program [7; 9; 1]) false [] (fun _ => South) 0 (length [7; 9; 1])
    = Running m /\
    interpret (digit_program [7; 9; 1]) false [] (fun _ => South) 0 (S (length [7; 9; 1]))
    = Halted m /\
    stack m = rev [7; 9; 1] /\ output m = [] /\ input m = [] /\
    pos m = (Z.of_nat (length [7; 9; 1]), 0).
Proof.
  apply (digit_program_pushes_digits [7; 9; 1] false [] (fun _ => South) 0).
  - repeat constructor; lia.
  - simpl. lia.
Defined.

Lemma extensions_gate_seven_characters_witness :
  exec true 0 (code "0") idle = exec false 0 (code "0") idle /\
  exec false 0 (code "a") idle = Running idle.
Proof.
  split.
  - apply (extensions_gate_seven_characters 0 (code "0") idle). reflexivity.
  - apply (extensions_gate_seven_characters 0 (code "a") idle). reflexivity.
Defined.


(** The text [AB] is printed as [B], [A]. *)
Lemma string_then_commas_print_in_reverse_witness :
  exists m,
    interpret (print_program [code "A"; code "B"]) false [] (fun _ => South) 3
              (length [code "A"; code "B"] + 2) = Halted m /\
    output m = map PrintChar (rev [code "A"; code "B"]) /\ stack m = [] /\ input m = [].
Proof.
  apply (string_then_commas_print_in_reverse [code "A"; code "B"] false []
           (fun _ => South) 3).
  - repeat constructor; try (vm_compute; lia); discriminate.
  - simpl. lia.
  - simpl. lia.
Defined.

Lemma swap_then_add_or_multiply_witness :
  exec false 0 (code "+") (with_stack [0; 7] idle)
  = exec false 0 (code "+") (with_stack [7] idle) /\
  exec false 0 (code "*") (with_stack [0; 7] idle)
  = exec false 0 (code "*") (with_stack [7] idle).
Proof.
  apply (swap_then_add_or_multiply false 0 (with_stack [7] idle) (with_stack [0; 7] idle)).
  reflexivity.
Defined.

(** Twenty-five empty lines and then [@]. *)
Lemma readfile_overruns_on_a_26th_line_witness :
  readfile (text_of (replicate 25 []) [code "@"]) = None /\
  interpret (text_of (replicate 25 []) [code "@"]) false [] (fun _ => South) 0 1 = Undefined.
Proof.
  apply (readfile_overruns_on_a_26th_line (replicate 25 []) (code "@") []).
  - apply Forall_replicate. constructor.
  - apply Forall_replicate. simpl. lia.
  - reflexivity.
  - reflexivity.
  - vm_compute. lia.
Defined.

(** An empty file before a program that would halt at once. *)
Lemma main_stays_inside_an_empty_program_witness :
  interpret [] false [] (fun _ => South) 0 1000
  = Running (advance 1000 (initial blank_grid [] (fun _ => South))) /\
  main (fun f => if String.eqb f "empty.bf"%string then Some [] else Some [code "@"])
       (fun _ _ => South) 0 1000 ["empty.bf"; "halt.bf"]%string 0 []
  = ([Call "empty.bf"%string false], Inside).
Proof.
  apply (main_stays_inside_an_empty_program
           (fun f => if String.eqb f "empty.bf"%string then Some [] else Some [code "@"])
           (fun _ _ => South) 0 1000 "empty.bf"%string ["halt.bf"%string] 0%nat []).
  - reflexivity.
  - reflexivity.
Defined.

End B93.
